(** * runASHS: the Slurm submission driver [submit.py]

    A shallow embedding of [submit.py] and the properties of it that the
    specification states.  The script is one linear pipeline: resolve the
    command-line namespace against the environment, read the subject list,
    and for each subject render a batch script and hand it to [sbatch].

    Conventions of the embedding.
    - A Python [str] is a [string]; a character stands for the code point of
      the same number, so the embedding covers text below code point 256.
    - What the interpreter and the operating system decide (which paths
      exist, what a glob pattern matches, what the table reader returns,
      whether a system call succeeds) is read from a [World].
    - Effects are recorded as a trace of [event]s; an uncaught exception
      ends the run and keeps the trace written so far. *)

From Stdlib Require Import ZArith NArith Ascii String List Bool Lia.
From stdpp Require Import base option strings list gmap fin_maps pretty.

Local Open Scope Z_scope.

(** ** Python strings *)

Module PyStr.

(** The one-character string ['\n'] (the source's [e]). *)
Definition nl : string := String (ascii_of_N 10) "".

(** [str.isspace] on one character, for code points below 256. *)
Definition is_space (c : ascii) : bool :=
  match N_of_ascii c with
  | 9 | 10 | 11 | 12 | 13 | 28 | 29 | 30 | 31 | 32 | 133 | 160 => true
  | _ => false
  end%N.

(** The characters [int()] skips around a literal: [is_space] without the
    four separators 28..31, which [int()] rejects. *)
Definition is_int_space (c : ascii) : bool :=
  match N_of_ascii c with
  | 9 | 10 | 11 | 12 | 13 | 32 | 133 | 160 => true
  | _ => false
  end%N.

Fixpoint lstrip_by (sp : ascii -> bool) (s : string) : string :=
  match s with
  | "" => ""
  | String c r => if sp c then lstrip_by sp r else s
  end.

Fixpoint rstrip_by (sp : ascii -> bool) (s : string) : string :=
  match s with
  | "" => ""
  | String c r =>
      match rstrip_by sp r with
      | "" => if sp c then "" else String c ""
      | r' => String c r'
      end
  end.

(** [s.strip()] *)
Definition strip (s : string) : string := rstrip_by is_space (lstrip_by is_space s).

(** [s.split(sep)] for a one-character separator: never empty. *)
Fixpoint split (sep : ascii) (s : string) : list string :=
  match s with
  | "" => [""]
  | String c r =>
      if Ascii.eqb c sep then "" :: split sep r
      else match split sep r with
           | h :: t => String c h :: t
           | [] => [String c ""]
           end
  end.

(** [sep.join(parts)] *)
Fixpoint join (sep : string) (parts : list string) : string :=
  match parts with
  | [] => ""
  | [p] => p
  | p :: ps => p +:+ sep +:+ join sep ps
  end.

(** [c in s] for a one-character [c]. *)
Fixpoint contains (c : ascii) (s : string) : bool :=
  match s with
  | "" => false
  | String d r => Ascii.eqb d c || contains c r
  end.

(** [s.startswith(c)] and [s.endswith(c)] for a one-character [c]. *)
Definition startswith (c : ascii) (s : string) : bool :=
  match s with
  | String d _ => Ascii.eqb d c
  | "" => false
  end.

Fixpoint endswith (c : ascii) (s : string) : bool :=
  match s with
  | "" => false
  | String d "" => Ascii.eqb d c
  | String _ r => endswith c r
  end.

(** [c * n] *)
Fixpoint repeat_chr (c : ascii) (n : nat) : string :=
  match n with
  | O => ""
  | S k => String c (repeat_chr c k)
  end.

Fixpoint take (n : nat) (s : string) : string :=
  match n, s with
  | S k, String c r => String c (take k r)
  | _, _ => ""
  end.

Fixpoint drop (n : nat) (s : string) : string :=
  match n, s with
  | S k, String _ r => drop k r
  | _, _ => s
  end.

Definition is_digit (c : ascii) : bool :=
  let n := N_of_ascii c in (48 <=? n)%N && (n <=? 57)%N.

Definition digit_val (c : ascii) : Z := Z.of_N (N_of_ascii c) - 48.

Fixpoint all_chars (p : ascii -> bool) (s : string) : bool :=
  match s with
  | "" => true
  | String c r => p c && all_chars p r
  end.

End PyStr.

(** ** [int(s)] on a string, base 10 *)

Module PyInt.
Import PyStr.

(** Digits with single underscores allowed between two digits.
    [prev] tells whether the previous character was a digit. *)
Fixpoint digits_us (prev : bool) (acc : Z) (s : string) : option Z :=
  match s with
  | "" => if prev then Some acc else None
  | String c r =>
      if is_digit c then digits_us true (10 * acc + digit_val c) r
      else if Ascii.eqb c "_" then
             if prev then
               match r with
               | String d _ => if is_digit d then digits_us false acc r else None
               | "" => None
               end
             else None
           else None
  end.

(** [int(s)]: surrounding white space is skipped, then an optional sign,
    then the digits; [None] is [ValueError].  (The digit-count limit that
    recent interpreters make configurable is not modelled.) *)
Definition int (s : string) : option Z :=
  match rstrip_by is_int_space (lstrip_by is_int_space s) with
  | String "+" r => digits_us false 0 r
  | String "-" r => Z.opp <$> digits_us false 0 r
  | r => digits_us false 0 r
  end.

(** [str(n)] for an [int]. *)
Definition str (n : Z) : string := pretty n.

End PyInt.

(** ** Python floats and [str(float)] *)

Module PyFloat.
Import PyStr.

(** A float is kept as what the interpreter's shortest-digits conversion
    returns for it: the sign, the shortest digit string that reads back
    as the same float, and the position of the decimal point; the value
    is [0.digits * 10^decpt].  [str] and [repr] format exactly this
    triple.  Zero is the digit string ["0"] with [decpt = 1]. *)
Inductive float : Type :=
| Finite (neg : bool) (digits : string) (decpt : Z)
| Inf (neg : bool)
| NaN.

(** The exponent as ["%+.02d"] prints it. *)
Definition exp_str (e : Z) : string :=
  let a := Z.abs e in
  (if e <? 0 then "-" else "+") +:+ (if a <? 10 then "0" else "") +:+ pretty a.

(** The interpreter's short float formatting for [repr]: exponent form
    when [decpt <= -4] or [decpt > 16], and [".0"] is added to a value
    without fractional digits in the fixed form. *)
Definition format_float_short (digits : string) (decpt0 : Z) : string :=
  let digits_len := Z.of_nat (String.length digits) in
  let use_exp := (decpt0 <=? -4) || (16 <? decpt0) in
  let decpt := if use_exp then 1 else decpt0 in
  let vdigits_end :=
    if use_exp then Z.max digits_len decpt else Z.max digits_len (decpt + 1) in
  let left :=
    if decpt <=? 0 then "0." +:+ repeat_chr "0" (Z.to_nat (0 - decpt)) else "" in
  let mid :=
    if (0 <? decpt) && (decpt <=? digits_len)
    then take (Z.to_nat decpt) digits +:+ "." +:+ drop (Z.to_nat decpt) digits
    else digits in
  let right :=
    if digits_len <? decpt
    then repeat_chr "0" (Z.to_nat (decpt - digits_len)) +:+ "." +:+
         repeat_chr "0" (Z.to_nat (vdigits_end - decpt))
    else repeat_chr "0" (Z.to_nat (vdigits_end - digits_len)) in
  let body := left +:+ mid +:+ right in
  let body := if endswith "." body
              then take (String.length body - 1) body else body in
  if use_exp then body +:+ "e" +:+ exp_str (decpt0 - 1) else body.

(** [str(x)] (equal to [repr(x)]) for a float. *)
Definition str (x : float) : string :=
  match x with
  | Finite neg digits decpt =>
      (if neg then "-" else "") +:+ format_float_short digits decpt
  | Inf neg => if neg then "-inf" else "inf"
  | NaN => "nan"
  end.

(** A float in the representation the interpreter produces: at least one
    digit, only digits, and neither a leading nor a trailing zero unless
    the value is zero. *)
Definition wf (x : float) : bool :=
  match x with
  | Finite _ digits decpt =>
      all_chars is_digit digits &&
      (String.eqb digits "0" && (decpt =? 1)
       || negb (startswith "0" digits) && negb (endswith "0" digits)
          && negb (String.eqb digits ""))
  | _ => true
  end.

(** [float(tok)] for the plain decimal literals [[+-]D*[.D*]] with at
    least one and at most 15 digits.  A decimal of at most 15 digits
    reads back from the float it rounds to, so the shortest digits of
    that float are the literal's own digits without leading and trailing
    zeros.  [None] means the token lies outside this fragment (exponents,
    longer literals, [inf], [nan], malformed text): it is not a verdict
    on what [float] does there. *)
Definition of_literal (tok : string) : option float :=
  let '(neg, body) :=
    match tok with
    | String "-" r => (true, r)
    | String "+" r => (false, r)
    | _ => (false, tok)
    end in
  match split "." body with
  | [ip] | [ip; ""] =>
      let n := String.length ip in
      if all_chars is_digit ip && (0 <? n)%nat && (n <=? 15)%nat then
        let sig := lstrip_by (Ascii.eqb "0") ip in
        let ds := rstrip_by (Ascii.eqb "0") sig in
        if String.eqb ds "" then Some (Finite neg "0" 1)
        else Some (Finite neg ds (Z.of_nat (String.length sig)))
      else None
  | [ip; fp] =>
      let n := (String.length ip + String.length fp)%nat in
      if all_chars is_digit ip && all_chars is_digit fp && (n <=? 15)%nat then
        let sig := lstrip_by (Ascii.eqb "0") (ip +:+ fp) in
        let ds := rstrip_by (Ascii.eqb "0") sig in
        if String.eqb ds "" then Some (Finite neg "0" 1)
        else Some (Finite neg ds
                     (Z.of_nat (String.length sig) - Z.of_nat (String.length fp)))
      else None
  | _ => None
  end.

End PyFloat.

(** ** [os.path] (POSIX) *)

Module PosixPath.
Import PyStr.

(** [os.path.join(a, b)] *)
Definition join (a b : string) : string :=
  if startswith "/" b then b
  else if String.eqb a "" || endswith "/" a then a +:+ b
  else a +:+ "/" +:+ b.

(** The loop of [normpath]; [new_comps] is kept with its last element
    first. *)
Fixpoint normpath_comps (initial_slashes : nat) (new_comps comps : list string)
  : list string :=
  match comps with
  | [] => rev new_comps
  | comp :: rest =>
      if String.eqb comp "" || String.eqb comp "." then
        normpath_comps initial_slashes new_comps rest
      else if negb (String.eqb comp "..")
              || (Nat.eqb initial_slashes 0 && bool_decide (new_comps = []))
              || match new_comps with
                 | top :: _ => String.eqb top ".."
                 | [] => false
                 end
      then normpath_comps initial_slashes (comp :: new_comps) rest
      else normpath_comps initial_slashes (tl new_comps) rest
  end.

(** [os.path.normpath(path)] *)
Definition normpath (path : string) : string :=
  if String.eqb path "" then "." else
  let initial_slashes :=
    match path with
    | String "/" (String "/" (String "/" _)) => 1%nat
    | String "/" (String "/" _) => 2%nat
    | String "/" _ => 1%nat
    | _ => 0%nat
    end in
  let comps := normpath_comps initial_slashes [] (split "/" path) in
  let path := repeat_chr "/" initial_slashes +:+ PyStr.join "/" comps in
  if String.eqb path "" then "." else path.

(** [os.path.abspath(path)], with [cwd] the current directory. *)
Definition abspath (cwd path : string) : string :=
  normpath (if startswith "/" path then path else join cwd path).

End PosixPath.

(** ** Values, the world, effects *)

(** The Python values the script handles with a type that is not fixed:
    the memory option and the cells of the subject table. *)
Inductive pyval : Type :=
| PStr (s : string)
| PInt (n : Z)
| PFloat (x : PyFloat.float)
| PBool (b : bool).

(** [str(v)] *)
Definition py_str (v : pyval) : string :=
  match v with
  | PStr s => s
  | PInt n => PyInt.str n
  | PFloat x => PyFloat.str x
  | PBool b => if b then "True" else "False"
  end.

(** The table the reader returns: its rows, each a list of cells (one cell
    per row under [usecols=[0]]). *)
Definition DataFrame : Type := list (list pyval).

(** [df.to_numpy().flatten()], listed: the cells in row-major order. *)
Definition flatten (df : DataFrame) : list pyval := concat df.

Inductive event : Type :=
| Makedirs (path : string)                 (* os.makedirs(path, exist_ok=True) *)
| Input (prompt : string)                  (* input(prompt) *)
| WriteFile (path text : string)           (* open(path, 'w'), the writes, close *)
| Popen (argv : list string) (cwd : string) (* sp.Popen(argv, cwd=cwd) *)
| Wait (argv : list string) (cwd : string). (* p.wait() on that process *)

Inductive exn : Type :=
| IOError (msg : string)   (* raised by the script *)
| TypeError                (* os.path.join on a subject that is not a str *)
| ReaderError              (* whatever pd.read_csv raises *)
| SysError (e : event).    (* the call behind [e] failed (EOFError for Input) *)

Record World : Type := {
  (** [os.environ.get('ASHS_ROOT')] *)
  environ_ASHS_ROOT : option string;
  (** [os.getcwd()] *)
  getcwd : string;
  (** [os.path.exists] *)
  path_exists : string -> bool;
  (** [glob.glob] *)
  glob : string -> list string;
  (** [pd.read_csv(path, usecols=[0], header=None)]; [None] when it raises *)
  read_csv : string -> option DataFrame;
  (** whether the call behind an event succeeds, given how many effects
      the run has performed so far *)
  sys_ok : nat -> event -> bool
}.

(** The run monad: the trace so far goes in; an exception or a result comes
    out with the trace extended. *)
Definition M (A : Type) : Type := list event -> (exn + A) * list event.

#[global] Instance M_ret : MRet M := fun A (x : A) tr => (inr x, tr).
#[global] Instance M_bind : MBind M := fun A B (k : A -> M B) (m : M A) tr =>
  match m tr with
  | (inl ex, tr') => (inl ex, tr')
  | (inr x, tr') => k x tr'
  end.

Definition raise {A : Type} (ex : exn) : M A := fun tr => (inl ex, tr).

Definition perform (w : World) (e : event) : M unit := fun tr =>
  if sys_ok w (List.length tr) e then (inr tt, tr ++ [e]) else (inl (SysError e), tr).

(** ** The command line (source lines 18-30) *)

Module args.

(** The namespace [parser.parse_args()] returns.  Every option has
    [nargs=1]; a field holds the element [args.x[0]]. *)
Record Namespace : Type := {
  csv : string;
  root : option string;
  atlas : string;
  data : option string;
  out : option string;
  tidy : bool;
  nProcs : Z;
  mem : pyval;
  time : string;
  email : option string;
  noSubmit : bool
}.

(** The namespace when only the positional argument is given.  The
    default of [-mem] is the list [['4']]: being a list and not a string,
    it is stored as it is, and its element stays the string ['4']. *)
Definition defaults (csv : string) : Namespace := {|
  csv := csv;
  root := None;
  atlas := "ashs_atlas_upennpmc_20170810";
  data := None;
  out := None;
  tidy := false;
  nProcs := 1;
  mem := PStr "4";
  time := "04:00:00";
  email := None;
  noSubmit := false
|}.

(** The value of [args.mem[0]]: the default when the flag is absent,
    [float(tok)] when it is given ([type=float]).  [None] only where
    [PyFloat.of_literal] does not cover the token. *)
Definition mem_value (flag : option string) : option pyval :=
  match flag with
  | None => Some (mem (defaults ""))
  | Some tok => PFloat <$> PyFloat.of_literal tok
  end.

Definition with_time (a : Namespace) (t : string) : Namespace := {|
  csv := csv a; root := root a; atlas := atlas a; data := data a;
  out := out a; tidy := tidy a; nProcs := nProcs a; mem := mem a;
  time := t; email := email a; noSubmit := noSubmit a
|}.

Definition with_mem (a : Namespace) (m : pyval) : Namespace := {|
  csv := csv a; root := root a; atlas := atlas a; data := data a;
  out := out a; tidy := tidy a; nProcs := nProcs a; mem := m;
  time := time a; email := email a; noSubmit := noSubmit a
|}.

Definition with_noSubmit (a : Namespace) (b : bool) : Namespace := {|
  csv := csv a; root := root a; atlas := atlas a; data := data a;
  out := out a; tidy := tidy a; nProcs := nProcs a; mem := mem a;
  time := time a; email := email a; noSubmit := b
|}.

End args.

(** ** The script (source lines 32-155) *)

Import PyStr.

(** The double-quote character, for the messages that quote a word. *)
Definition dq : string := String (ascii_of_N 34) "".

Definition stdComplain : string := " Please format it like the default setting.".

Definition csv_msg : string :=
  "It appears that the specified CSV file does not exist.".
Definition time_msg : string :=
  "It appears that at least one of the " +:+ dq +:+ "hours" +:+ dq +:+ ", " +:+
  dq +:+ "minutes" +:+ dq +:+ ", or " +:+ dq +:+ "seconds" +:+ dq +:+
  " portions of the time input is incorrect." +:+ stdComplain.
Definition email_msg : string :=
  "It appears that the input email address is incorrectly formatted.".
Definition no_root_msg : string :=
  "You must either specify the " +:+ dq +:+ "ASHS_ROOT" +:+ dq +:+
  " environment variable or use the " +:+ dq +:+ "root" +:+ dq +:+
  " option for this script.".
Definition root_msg : string :=
  "The " +:+ dq +:+ "root" +:+ dq +:+
  " directory that was specified for ASHS does not appear to exist.".
Definition atlas_msg : string :=
  "The specified ASHS atlas does not appear to exist.".
Definition data_msg : string :=
  "The specified " +:+ dq +:+ "data" +:+ dq +:+
  " directory does not appear to exist.".

(** The module-level variables the validation leaves behind. *)
Record Config : Type := {
  subjectsToRunFile : string;
  nProcs : Z;
  mem : string;
  time : string;
  email : option string;
  noSubmit : bool;
  ashsRoot : string;
  ashsAtlasName : string;
  ashsAtlasPath : string;
  dataDir : string;
  parentOutDir : string;
  tidy : bool
}.

(** Lines 44-50: the time limit is stripped, split on [':'], and every part
    must be accepted by [int]. *)
Definition resolve_time (a : args.Namespace) : M string :=
  let stripTime := strip (args.time a) in
  let timeHourSplit := split ":" stripTime in
  match mapM PyInt.int timeHourSplit with
  | Some _ => mret stripTime
  | None => raise (IOError time_msg)
  end.

(** Lines 58-66: the root directory. *)
Definition resolve_root (w : World) (a : args.Namespace) : M string :=
  match args.root a with
  | None =>
      match environ_ASHS_ROOT w with
      | Some v => mret v
      | None => raise (IOError no_root_msg)
      end
  | Some r =>
      if negb (path_exists w r) then raise (IOError root_msg)
      else mret (PosixPath.abspath (getcwd w) r)
  end.

(** Lines 35-86: validate the command line and assign the variables. *)
Definition resolve (w : World) (a : args.Namespace) : M Config :=
  subjectsToRunFile ←
    (if path_exists w (args.csv a)
     then mret (PosixPath.abspath (getcwd w) (args.csv a))
     else raise (IOError csv_msg));
  let nProcs := args.nProcs a in
  let mem := py_str (args.mem a) +:+ "G" in
  time ← resolve_time a;
  _ ← (match args.email a with
       | Some addr => if negb (contains "@" addr)
                      then raise (IOError email_msg) else mret tt
       | None => mret tt
       end);
  let email := args.email a in
  let noSubmit := args.noSubmit a in
  ashsRoot ← resolve_root w a;
  let ashsAtlasName := args.atlas a in
  let ashsAtlasPath := PosixPath.join ashsRoot ashsAtlasName in
  _ ← (if negb (path_exists w ashsAtlasPath)
       then raise (IOError atlas_msg) else mret tt);
  let dataDir :=
    match args.data a with
    | None => PosixPath.join ashsRoot "data"
    | Some d => PosixPath.abspath (getcwd w) d
    end in
  _ ← (if negb (path_exists w dataDir)
       then raise (IOError data_msg) else mret tt);
  let parentOutDir :=
    match args.out a with
    | None => PosixPath.join ashsRoot "outputs"
    | Some o => PosixPath.abspath (getcwd w) o
    end in
  _ ← perform w (Makedirs parentOutDir);
  let tidy := args.tidy a in
  mret {| subjectsToRunFile := subjectsToRunFile; nProcs := nProcs; mem := mem;
          time := time; email := email; noSubmit := noSubmit;
          ashsRoot := ashsRoot; ashsAtlasName := ashsAtlasName;
          ashsAtlasPath := ashsAtlasPath; dataDir := dataDir;
          parentOutDir := parentOutDir; tidy := tidy |}.

(** Lines 89-90: the first column of the table, as the reader typed it. *)
Definition read_subjects (w : World) (cfg : Config) : M (list pyval) :=
  match read_csv w (subjectsToRunFile cfg) with
  | Some df => mret (flatten df)
  | None => raise ReaderError
  end.

(** The source's [s]. *)
Definition s : string := "#SBATCH ".

Definition gradient_pattern (cfg : Config) (subject : string) : string :=
  PosixPath.join (dataDir cfg) subject +:+ "/MPRAGE_[0-9]*.nii.*".
Definition focal_pattern (cfg : Config) (subject : string) : string :=
  PosixPath.join (dataDir cfg) subject +:+ "/HighResHippo_[0-9]*.nii.*".

(** Lines 103-108 *)
Definition msg (subject : string) : string :=
  "WARNING: " +:+
  "It appears that there is not exactly *ONE* of each data file type " +:+
  "(3D gradient echo MRI and 2D focal fast spin echo MRI) " +:+
  ("in the data directory for subject " +:+ subject +:+ ". ") +:+
  "You may need to run ASHS manually for this subject. " +:+
  "Press the Enter key to acknowledge this message and skip this subject. >>>".

Definition subjectOutDir (cfg : Config) (subject : string) : string :=
  PosixPath.join (parentOutDir cfg) subject.
Definition sbatchFileName (subject : string) : string :=
  "sbatch_" +:+ subject +:+ ".script".
Definition sbatchFilePath (cfg : Config) (subject : string) : string :=
  PosixPath.join (subjectOutDir cfg subject) (sbatchFileName subject).

(** Lines 118-125 *)
Definition ashsCmd (cfg : Config) (subject gradientFile focalFile : string) : string :=
  let cmd :=
    "srun " +:+ PosixPath.join (ashsRoot cfg) "bin/ashs_main.sh" +:+ " " +:+
    "-a " +:+ ashsAtlasPath cfg +:+ " " +:+
    "-g " +:+ gradientFile +:+ " " +:+
    "-f " +:+ focalFile +:+ " " +:+
    "-w " +:+ subjectOutDir cfg subject +:+ " " +:+
    ("-I " +:+ subject) in
  if tidy cfg then cmd +:+ " -T" else cmd.

(** Lines 130-150: the arguments of the successive [f.write] calls. *)
Definition sbatch_writes (cfg : Config) (subject cmd : string) : list string :=
  [ "#!/bin/bash" +:+ nl;
    nl;
    "#Slurm directives:" +:+ nl;
    nl;
    s +:+ "-n " +:+ PyInt.str (nProcs cfg) +:+ nl;
    s +:+ ("--mem=" +:+ mem cfg) +:+ nl;
    s +:+ "--time " +:+ time cfg +:+ nl;
    nl;
    s +:+ "-J " +:+ ("ASHS_" +:+ subject) +:+ nl;
    s +:+ "-o " +:+ ("ASHS_" +:+ subject +:+ "-%j.out") +:+ nl;
    s +:+ "-e " +:+ ("ASHS_" +:+ subject +:+ "-%j.err") +:+ nl;
    nl ] ++
  match email cfg with
  | Some addr =>
      [ s +:+ "--mail-type=FAIL,REQUEUE" +:+ nl;
        s +:+ "--mail-user=" +:+ addr +:+ nl;
        nl ]
  | None => []
  end ++
  [ "#Commands to run:" +:+ nl;
    nl;
    cmd +:+ nl ].

(** What the file holds when the [with] block closes. *)
Definition sbatch_text (cfg : Config) (subject cmd : string) : string :=
  foldr String.append "" (sbatch_writes cfg subject cmd).

(** Lines 96-155: one turn of the loop. *)
Definition loop_body (w : World) (cfg : Config) (subject : pyval) : M unit :=
  match subject with
  | PStr subject =>
      let gradientFiles := glob w (gradient_pattern cfg subject) in
      let focalFiles := glob w (focal_pattern cfg subject) in
      if negb (Nat.eqb (List.length gradientFiles) 1)
         || negb (Nat.eqb (List.length focalFiles) 1)
      then perform w (Input (msg subject))
      else
        _ ← perform w (Makedirs (subjectOutDir cfg subject));
        let cmd := ashsCmd cfg subject (default "" (gradientFiles !! 0%nat))
                                       (default "" (focalFiles !! 0%nat)) in
        _ ← perform w (WriteFile (sbatchFilePath cfg subject)
                                 (sbatch_text cfg subject cmd));
        if negb (noSubmit cfg) then
          _ ← perform w (Popen ["sbatch"; sbatchFileName subject]
                               (subjectOutDir cfg subject));
          perform w (Wait ["sbatch"; sbatchFileName subject]
                          (subjectOutDir cfg subject))
        else mret tt
  | _ => raise TypeError
  end.

Fixpoint main_loop (w : World) (cfg : Config) (subjects : list pyval) : M unit :=
  match subjects with
  | [] => mret tt
  | subject :: rest => _ ← loop_body w cfg subject; main_loop w cfg rest
  end.

(** The whole script, from the parsed command line on. *)
Definition main (w : World) (a : args.Namespace) : M unit :=
  cfg ← resolve w a;
  subjects ← read_subjects w cfg;
  main_loop w cfg subjects.

(** ** The files a trace leaves behind *)

(** [open(path, 'w')] truncates: a write replaces what the path held. *)
Definition apply_event (fs : gmap string string) (e : event) : gmap string string :=
  match e with
  | WriteFile path text => <[path := text]> fs
  | _ => fs
  end.

Definition files_after (tr : list event) (fs : gmap string string)
  : gmap string string :=
  foldl apply_event fs tr.

(** The submissions in a trace. *)
Definition is_popen (e : event) : bool :=
  match e with
  | Popen _ _ => true
  | _ => false
  end.

(** ** Vocabulary of the statements *)

(** A run, or a part of one, ended without an exception. *)
Definition succeeds {A : Type} (r : (exn + A) * list event) : Prop :=
  exists x, r.1 = inr x.

(** Every part of the stripped time limit between colons is accepted by
    [int]; the number of parts is free. *)
Definition time_ok (t : string) : Prop :=
  Forall (fun elem => is_Some (PyInt.int elem)) (split ":" (strip t)).

(** What follows the first decimal point of a string, if it has one. *)
Fixpoint after_point (m : string) : option string :=
  match m with
  | "" => None
  | String c r => if Ascii.eqb c "." then Some r else after_point r
  end.

(** The number of decimal places of a memory string such as [4.0G]: the
    characters between the decimal point and the final unit letter. *)
Definition decimal_places (m : string) : option nat :=
  (fun r => (String.length r - 1)%nat) <$> after_point m.

(** Whether a trace has brought a path into being, as a directory made
    or a file written. *)
Definition created (tr : list event) (p : string) : bool :=
  existsb (fun e => match e with
                    | Makedirs q => String.eqb q p
                    | WriteFile q _ => String.eqb q p
                    | _ => false
                    end) tr.

(** The world a run leaves behind when nothing else touches it: the paths
    of its trace exist now, everything else is as it was. *)
Definition world_after (w : World) (tr : list event) : World := {|
  environ_ASHS_ROOT := environ_ASHS_ROOT w;
  getcwd := getcwd w;
  path_exists := fun p => path_exists w p || created tr p;
  glob := glob w;
  read_csv := read_csv w;
  sys_ok := sys_ok w
|}.

(** [w2] is a world in which the command line [a] is run again after its
    run in [w1], with the inputs unchanged and nothing else going on: the
    environment and the current directory are the same; every path that
    existed still exists, and no path exists newly unless the first run
    has done something; the two data-file patterns match the same files
    for every subject; the table reads the same; the system calls behave
    the same. *)
Definition second_run (w1 : World) (a : args.Namespace) (w2 : World) : Prop :=
  environ_ASHS_ROOT w2 = environ_ASHS_ROOT w1 /\
  getcwd w2 = getcwd w1 /\
  (forall p, path_exists w1 p = true -> path_exists w2 p = true) /\
  ((main w1 a []).2 = [] -> forall p, path_exists w2 p = path_exists w1 p) /\
  (forall cfg subject,
     glob w2 (gradient_pattern cfg subject) = glob w1 (gradient_pattern cfg subject) /\
     glob w2 (focal_pattern cfg subject) = glob w1 (focal_pattern cfg subject)) /\
  read_csv w2 (PosixPath.abspath (getcwd w1) (args.csv a)) =
    read_csv w1 (PosixPath.abspath (getcwd w1) (args.csv a)) /\
  (forall n e, sys_ok w2 n e = sys_ok w1 n e).

(** ** Sample inputs *)

Module sample.

(** An installation under [/opt/ashs] named by the environment, data for
    subject [S1] only, and a table that lists [S1] and [S2]. *)
Definition world : World := {|
  environ_ASHS_ROOT := Some "/opt/ashs";
  getcwd := "/home/u";
  path_exists := fun p =>
    bool_decide (p ∈ ["subjects.csv"; "/opt/ashs";
                      "/opt/ashs/ashs_atlas_upennpmc_20170810";
                      "/opt/ashs/data"]);
  glob := fun p =>
    if String.eqb p "/opt/ashs/data/S1/MPRAGE_[0-9]*.nii.*"
    then ["/opt/ashs/data/S1/MPRAGE_001.nii.gz"]
    else if String.eqb p "/opt/ashs/data/S1/HighResHippo_[0-9]*.nii.*"
    then ["/opt/ashs/data/S1/HighResHippo_001.nii.gz"]
    else [];
  read_csv := fun p =>
    if String.eqb p "/home/u/subjects.csv"
    then Some [[PStr "S1"]; [PStr "S2"]] else None;
  sys_ok := fun _ _ => true
|}.

Definition namespace : args.Namespace := args.defaults "subjects.csv".

(** What [resolve] makes of [namespace] in [world]. *)
Definition config : Config := {|
  subjectsToRunFile := "/home/u/subjects.csv"; nProcs := 1; mem := "4G";
  time := "04:00:00"; email := None; noSubmit := false;
  ashsRoot := "/opt/ashs"; ashsAtlasName := "ashs_atlas_upennpmc_20170810";
  ashsAtlasPath := "/opt/ashs/ashs_atlas_upennpmc_20170810";
  dataDir := "/opt/ashs/data"; parentOutDir := "/opt/ashs/outputs";
  tidy := false
|}.

Definition config_noSubmit : Config := {|
  subjectsToRunFile := "/home/u/subjects.csv"; nProcs := 1; mem := "4G";
  time := "04:00:00"; email := None; noSubmit := true;
  ashsRoot := "/opt/ashs"; ashsAtlasName := "ashs_atlas_upennpmc_20170810";
  ashsAtlasPath := "/opt/ashs/ashs_atlas_upennpmc_20170810";
  dataDir := "/opt/ashs/data"; parentOutDir := "/opt/ashs/outputs";
  tidy := false
|}.

(** [config] with the memory given on the command line as 4 and as
    4.25. *)
Definition config_mem_4 : Config := {|
  subjectsToRunFile := "/home/u/subjects.csv"; nProcs := 1; mem := "4.0G";
  time := "04:00:00"; email := None; noSubmit := false;
  ashsRoot := "/opt/ashs"; ashsAtlasName := "ashs_atlas_upennpmc_20170810";
  ashsAtlasPath := "/opt/ashs/ashs_atlas_upennpmc_20170810";
  dataDir := "/opt/ashs/data"; parentOutDir := "/opt/ashs/outputs";
  tidy := false
|}.

Definition config_mem_4_25 : Config := {|
  subjectsToRunFile := "/home/u/subjects.csv"; nProcs := 1; mem := "4.25G";
  time := "04:00:00"; email := None; noSubmit := false;
  ashsRoot := "/opt/ashs"; ashsAtlasName := "ashs_atlas_upennpmc_20170810";
  ashsAtlasPath := "/opt/ashs/ashs_atlas_upennpmc_20170810";
  dataDir := "/opt/ashs/data"; parentOutDir := "/opt/ashs/outputs";
  tidy := false
|}.

(** The same installation with a table whose first column holds the
    numbers 101 and 102: the reader types such a column as integers. *)
Definition world_numeric_ids : World := {|
  environ_ASHS_ROOT := environ_ASHS_ROOT world;
  getcwd := getcwd world;
  path_exists := path_exists world;
  glob := fun p =>
    if String.eqb p "/opt/ashs/data/101/MPRAGE_[0-9]*.nii.*"
    then ["/opt/ashs/data/101/MPRAGE_001.nii.gz"]
    else if String.eqb p "/opt/ashs/data/101/HighResHippo_[0-9]*.nii.*"
    then ["/opt/ashs/data/101/HighResHippo_001.nii.gz"]
    else [];
  read_csv := fun p =>
    if String.eqb p "/home/u/subjects.csv"
    then Some [[PInt 101]; [PInt 102]] else None;
  sys_ok := fun _ _ => true
|}.

(** No root flag, [ASHS_ROOT] naming a directory that does not exist,
    and the atlas and the data given by absolute paths that do. *)
Definition world_missing_root : World := {|
  environ_ASHS_ROOT := Some "/nonexistent";
  getcwd := "/home/u";
  path_exists := fun p =>
    bool_decide (p ∈ ["subjects.csv"; "/atlases/upennpmc"; "/scans"]);
  glob := fun p =>
    if String.eqb p "/scans/S1/MPRAGE_[0-9]*.nii.*"
    then ["/scans/S1/MPRAGE_001.nii.gz"]
    else if String.eqb p "/scans/S1/HighResHippo_[0-9]*.nii.*"
    then ["/scans/S1/HighResHippo_001.nii.gz"]
    else [];
  read_csv := fun p =>
    if String.eqb p "/home/u/subjects.csv" then Some [[PStr "S1"]] else None;
  sys_ok := fun _ _ => true
|}.

Definition namespace_missing_root : args.Namespace := {|
  args.csv := "subjects.csv";
  args.root := None;
  args.atlas := "/atlases/upennpmc";
  args.data := Some "/scans";
  args.out := Some "/results";
  args.tidy := false;
  args.nProcs := 1;
  args.mem := PStr "4";
  args.time := "04:00:00";
  args.email := None;
  args.noSubmit := false
|}.

End sample.

(** ** Vocabulary of the further properties *)

Definition with_email (a : args.Namespace) (addr : option string)
  : args.Namespace := {|
  args.csv := args.csv a; args.root := args.root a; args.atlas := args.atlas a;
  args.data := args.data a; args.out := args.out a; args.tidy := args.tidy a;
  args.nProcs := args.nProcs a; args.mem := args.mem a;
  args.time := args.time a; args.email := addr;
  args.noSubmit := args.noSubmit a
|}.

Definition with_nProcs (a : args.Namespace) (n : Z) : args.Namespace := {|
  args.csv := args.csv a; args.root := args.root a; args.atlas := args.atlas a;
  args.data := args.data a; args.out := args.out a; args.tidy := args.tidy a;
  args.nProcs := n; args.mem := args.mem a;
  args.time := args.time a; args.email := args.email a;
  args.noSubmit := args.noSubmit a
|}.

(** Lines 73-76 and 80-83: the data and the output directory for a given
    root. *)
Definition data_dir (w : World) (a : args.Namespace) (root : string) : string :=
  match args.data a with
  | None => PosixPath.join root "data"
  | Some d => PosixPath.abspath (getcwd w) d
  end.

Definition out_dir (w : World) (a : args.Namespace) (root : string) : string :=
  match args.out a with
  | None => PosixPath.join root "outputs"
  | Some o => PosixPath.abspath (getcwd w) o
  end.

(** A root is available: the path given by the root flag exists, and the
    root is that path made absolute; or, without the flag, [ASHS_ROOT] is
    set, and the root is its value. *)
Definition root_available (w : World) (a : args.Namespace) (root : string)
  : Prop :=
  match args.root a with
  | Some r =>
      path_exists w r = true /\ root = PosixPath.abspath (getcwd w) r
  | None => environ_ASHS_ROOT w = Some root
  end.

(** Everything resolution asks for, in the order it asks. *)
Definition resolvable (w : World) (a : args.Namespace) (tr : list event) : Prop :=
  path_exists w (args.csv a) = true /\
  time_ok (args.time a) /\
  (forall addr, args.email a = Some addr -> contains "@" addr = true) /\
  exists root,
    root_available w a root /\
    path_exists w (PosixPath.join root (args.atlas a)) = true /\
    path_exists w (data_dir w a root) = true /\
    sys_ok w (List.length tr) (Makedirs (out_dir w a root)) = true.

(** What [os.path.join] puts between a directory and a relative name. *)
Definition join_sep (a : string) : string :=
  if String.eqb a "" || endswith "/" a then "" else "/".

(** The test of line 102, negated: one file of each kind. *)
Definition one_of_each (w : World) (cfg : Config) (subject : string) : bool :=
  Nat.eqb (List.length (glob w (gradient_pattern cfg subject))) 1
  && Nat.eqb (List.length (glob w (focal_pattern cfg subject))) 1.

(** The effects of one turn of the loop when every call succeeds. *)
Definition turn_events (w : World) (cfg : Config) (subject : string) : list event :=
  if one_of_each w cfg subject then
    [Makedirs (subjectOutDir cfg subject);
     WriteFile (sbatchFilePath cfg subject)
       (sbatch_text cfg subject
          (ashsCmd cfg subject
             (default "" (glob w (gradient_pattern cfg subject) !! 0%nat))
             (default "" (glob w (focal_pattern cfg subject) !! 0%nat))))]
    ++ (if noSubmit cfg then []
        else [Popen ["sbatch"; sbatchFileName subject] (subjectOutDir cfg subject);
              Wait ["sbatch"; sbatchFileName subject] (subjectOutDir cfg subject)])
  else [Input (msg subject)].

Definition is_write (e : event) : bool :=
  match e with
  | WriteFile _ _ => true
  | _ => false
  end.

Definition is_input (e : event) : bool :=
  match e with
  | Input _ => true
  | _ => false
  end.

#[global] Instance event_eq_dec : EqDecision event.
Proof. solve_decision. Defined.

(** The submission of one subject's script. *)
Definition submission (cfg : Config) (subject : string) : event :=
  Popen ["sbatch"; sbatchFileName subject] (subjectOutDir cfg subject).

(** How many started processes have not been waited for, read off a trace:
    none, one (with its command and directory), or a disorder: an effect
    other than the wait for the process in flight. *)
Inductive proc_state : Type :=
| Idle
| Running (argv : list string) (cwd : string)
| Disorder.

Definition proc_step (st : proc_state) (e : event) : proc_state :=
  match st, e with
  | Idle, Popen argv cwd => Running argv cwd
  | Idle, Wait _ _ => Disorder
  | Idle, _ => Idle
  | Running argv cwd, Wait argv' cwd' =>
      if bool_decide (argv = argv' /\ cwd = cwd') then Idle else Disorder
  | Running _ _, _ => Disorder
  | Disorder, _ => Disorder
  end.

Definition proc_state_after (tr : list event) : proc_state :=
  foldl proc_step Idle tr.

(** [sample.world] with a scheduler command that cannot be started. *)
Definition world_no_sbatch : World := {|
  environ_ASHS_ROOT := environ_ASHS_ROOT sample.world;
  getcwd := getcwd sample.world;
  path_exists := path_exists sample.world;
  glob := glob sample.world;
  read_csv := read_csv sample.world;
  sys_ok := fun _ e => negb (is_popen e)
|}.

(** [sample.world] with a table the reader cannot parse. *)
Definition world_unreadable_table : World := {|
  environ_ASHS_ROOT := environ_ASHS_ROOT sample.world;
  getcwd := getcwd sample.world;
  path_exists := path_exists sample.world;
  glob := glob sample.world;
  read_csv := fun _ => None;
  sys_ok := sys_ok sample.world
|}.

(** [sample.world] with nobody at the terminal: [input] meets the end of
    its stream. *)
Definition world_no_operator : World := {|
  environ_ASHS_ROOT := environ_ASHS_ROOT sample.world;
  getcwd := getcwd sample.world;
  path_exists := path_exists sample.world;
  glob := glob sample.world;
  read_csv := read_csv sample.world;
  sys_ok := fun _ e => negb (is_input e)
|}.

(** The writes of a script that are mail directives. *)
Definition mail_directives (writes : list string) : list string :=
  List.filter (String.prefix "#SBATCH --mail") writes.

(** * Properties *)

(** ** Strings *)

Section strings.
Variable sp : ascii -> bool.

Lemma lstrip_by_spaces ws : all_chars sp ws = true -> lstrip_by sp ws = "".
Proof.
  induction ws as [|c r IH]; simpl; [done|].
  intros [Hc Hr]%andb_prop. by rewrite Hc, IH.
Qed.

Lemma lstrip_by_app_l ws t :
  all_chars sp ws = true -> lstrip_by sp (ws +:+ t) = lstrip_by sp t.
Proof.
  induction ws as [|c r IH]; simpl; [done|].
  intros [Hc Hr]%andb_prop. by rewrite Hc, IH.
Qed.

Lemma rstrip_by_spaces ws : all_chars sp ws = true -> rstrip_by sp ws = "".
Proof.
  induction ws as [|c r IH]; simpl; [done|].
  intros [Hc Hr]%andb_prop. by rewrite IH, Hc.
Qed.

Lemma rstrip_by_app_r t ws :
  all_chars sp ws = true -> rstrip_by sp (t +:+ ws) = rstrip_by sp t.
Proof.
  intros Hws. induction t as [|c r IH]; simpl.
  - by apply rstrip_by_spaces.
  - by rewrite IH.
Qed.

Lemma strip_by_app_r t ws :
  all_chars sp ws = true ->
  rstrip_by sp (lstrip_by sp (t +:+ ws)) = rstrip_by sp (lstrip_by sp t).
Proof.
  intros Hws. induction t as [|c r IH]; simpl.
  - by rewrite lstrip_by_spaces.
  - destruct (sp c); [done|].
    change (String c (r +:+ ws)) with (String c r +:+ ws).
    by rewrite rstrip_by_app_r.
Qed.
End strings.

Lemma strip_surrounding ws1 t ws2 :
  all_chars is_space ws1 = true -> all_chars is_space ws2 = true ->
  strip (ws1 +:+ t +:+ ws2) = strip t.
Proof.
  intros H1 H2. unfold strip.
  by rewrite lstrip_by_app_l, strip_by_app_r.
Qed.

(** ** The run monad *)

Ltac unfold_M := unfold mbind, M_bind, mret, M_ret, raise, perform in *.

Lemma bind_ok {A B} (m : M A) (k : A -> M B) tr x tr' :
  m tr = (inr x, tr') -> (m ≫= k) tr = k x tr'.
Proof. intros H. unfold_M. by rewrite H. Qed.

Lemma bind_fail {A B} (m : M A) (k : A -> M B) tr ex tr' :
  m tr = (inl ex, tr') -> (m ≫= k) tr = (inl ex, tr').
Proof. intros H. unfold_M. by rewrite H. Qed.

(** Split a run on the outcome of its first step. *)
Ltac bind_step H x tr1 E :=
  match type of H with
  | (?m ≫= ?k) ?tr = _ =>
      destruct (m tr) as [[?|x] tr1] eqn:E;
      [ rewrite (bind_fail m k _ _ _ E) in H
      | rewrite (bind_ok m k _ _ _ E) in H ]
  end.

Lemma guard_ok (b : bool) ex tr u tr' :
  (if b then raise ex else mret tt) tr = (inr u, tr') -> b = false /\ tr' = tr.
Proof. destruct b; unfold_M; intros H; by simplify_eq. Qed.

Lemma perform_ok w e tr :
  sys_ok w (List.length tr) e = true -> perform w e tr = (inr tt, tr ++ [e]).
Proof. intros H. unfold perform. by rewrite H. Qed.

Lemma main_loop_cons w cfg subject rest tr :
  main_loop w cfg (subject :: rest) tr =
  match loop_body w cfg subject tr with
  | (inl ex, tr') => (inl ex, tr')
  | (inr _, tr') => main_loop w cfg rest tr'
  end.
Proof. reflexivity. Qed.

(** ** What a successful resolution fixes *)

Lemma resolve_time_ok a tr t tr' :
  resolve_time a tr = (inr t, tr') -> t = strip (args.time a) /\ tr' = tr.
Proof.
  unfold resolve_time. destruct (mapM _ _); unfold_M; intros H; by simplify_eq.
Qed.

Lemma resolve_ok w a tr cfg tr' :
  resolve w a tr = (inr cfg, tr') ->
  mem cfg = py_str (args.mem a) +:+ "G" /\
  time cfg = strip (args.time a) /\
  noSubmit cfg = args.noSubmit a /\
  nProcs cfg = args.nProcs a /\
  email cfg = args.email a /\
  tidy cfg = args.tidy a /\
  tr' = tr ++ [Makedirs (parentOutDir cfg)].
Proof.
  unfold resolve. intros H.
  bind_step H f tr1 E1; [done|]. cbv zeta in H.
  bind_step H t tr2 E2; [done|].
  bind_step H u1 tr3 E3; [done|]. cbv zeta in H.
  bind_step H r tr4 E4; [done|]. cbv zeta in H.
  bind_step H u2 tr5 E5; [done|]. cbv zeta in H.
  bind_step H u3 tr6 E6; [done|]. cbv zeta in H.
  bind_step H u4 tr7 E7; [done|]. cbv zeta in H.
  apply resolve_time_ok in E2 as [-> ->].
  assert (tr1 = tr) as ->.
  { destruct (path_exists w (args.csv a)); unfold_M; by simplify_eq. }
  assert (tr3 = tr) as ->.
  { destruct (args.email a); [destruct (negb _)|]; unfold_M; by simplify_eq. }
  assert (tr4 = tr) as ->.
  { unfold resolve_root in E4.
    destruct (args.root a); [destruct (negb _)|destruct (environ_ASHS_ROOT w)];
      unfold_M; by simplify_eq. }
  apply guard_ok in E5 as [_ ->]. apply guard_ok in E6 as [_ ->].
  unfold perform in E7. destruct (sys_ok w _ _); [|done].
  unfold_M. injection E7 as <-. by injection H as <- <-.
Qed.

(** ** The loop over the subjects *)

(** One turn of the loop for a subject with a single match per pattern. *)
Lemma main_loop_valid_subject w cfg subject g f rest tr :
  glob w (gradient_pattern cfg subject) = [g] ->
  glob w (focal_pattern cfg subject) = [f] ->
  (forall n e, sys_ok w n e = true) ->
  let dir := subjectOutDir cfg subject in
  let script := sbatch_text cfg subject (ashsCmd cfg subject g f) in
  let submission :=
    if noSubmit cfg then []
    else [Popen ["sbatch"; sbatchFileName subject] dir;
          Wait ["sbatch"; sbatchFileName subject] dir] in
  main_loop w cfg (PStr subject :: rest) tr =
  main_loop w cfg rest
    (tr ++ [Makedirs dir; WriteFile (PosixPath.join dir (sbatchFileName subject)) script]
        ++ submission).
Proof.
  intros Hg Hf Hok dir script submission.
  rewrite main_loop_cons. unfold loop_body.
  rewrite Hg, Hf.
  change (negb (List.length [g] =? 1)%nat || negb (List.length [f] =? 1)%nat)
    with false.
  cbv iota. subst submission dir script. unfold_M. simpl default.
  rewrite Hok. cbv beta iota. rewrite Hok. cbv beta iota.
  destruct (noSubmit cfg); cbn [negb]; cbv beta iota.
  - by rewrite <- !app_assoc.
  - rewrite Hok. cbv beta iota. rewrite Hok. cbv beta iota.
    by rewrite <- !app_assoc.
Qed.

(** C1.  A subject whose data directory holds exactly one gradient-echo
    file [g] and exactly one focal spin-echo file [f]: the turn of the loop
    creates the subject's output directory, writes the job script into it
    and, unless no-submit is set, starts [sbatch] once on the script's file
    name with that directory as working directory and waits for it; the
    loop then goes on with the remaining subjects.  (The system calls are
    taken to succeed.) *)
Theorem C1_valid_subject_written_and_submitted
    w cfg subject g f rest tr :
  glob w (gradient_pattern cfg subject) = [g] ->
  glob w (focal_pattern cfg subject) = [f] ->
  (forall n e, sys_ok w n e = true) ->
  let dir := subjectOutDir cfg subject in
  let script := sbatch_text cfg subject (ashsCmd cfg subject g f) in
  let submission :=
    if noSubmit cfg then []
    else [Popen ["sbatch"; sbatchFileName subject] dir;
          Wait ["sbatch"; sbatchFileName subject] dir] in
  main_loop w cfg (PStr subject :: rest) tr =
  main_loop w cfg rest
    (tr ++ [Makedirs dir; WriteFile (PosixPath.join dir (sbatchFileName subject)) script]
        ++ submission).
Proof. apply main_loop_valid_subject. Qed.

Lemma C1_witness :
  main_loop sample.world sample.config [PStr "S1"] [] =
  (inr tt,
   [Makedirs "/opt/ashs/outputs/S1";
    WriteFile "/opt/ashs/outputs/S1/sbatch_S1.script"
      (sbatch_text sample.config "S1"
         (ashsCmd sample.config "S1" "/opt/ashs/data/S1/MPRAGE_001.nii.gz"
            "/opt/ashs/data/S1/HighResHippo_001.nii.gz"));
    Popen ["sbatch"; "sbatch_S1.script"] "/opt/ashs/outputs/S1";
    Wait ["sbatch"; "sbatch_S1.script"] "/opt/ashs/outputs/S1"]).
Proof.
  rewrite (C1_valid_subject_written_and_submitted sample.world sample.config
             "S1" "/opt/ashs/data/S1/MPRAGE_001.nii.gz"
             "/opt/ashs/data/S1/HighResHippo_001.nii.gz" [] []);
    reflexivity.
Defined.

(** C2.  A subject for which either pattern matches no file or several:
    the turn of the loop shows the warning prompt and, once the operator
    has acknowledged it, goes on with the remaining subjects; it creates
    no directory, writes no script and submits nothing, and the run is not
    ended. *)
Theorem C2_ambiguous_subject_skipped w cfg subject rest tr :
  List.length (glob w (gradient_pattern cfg subject)) <> 1%nat \/
  List.length (glob w (focal_pattern cfg subject)) <> 1%nat ->
  sys_ok w (List.length tr) (Input (msg subject)) = true ->
  main_loop w cfg (PStr subject :: rest) tr =
  main_loop w cfg rest (tr ++ [Input (msg subject)]).
Proof.
  intros Hne Hack. rewrite main_loop_cons. unfold loop_body.
  assert (negb (Nat.eqb (List.length (glob w (gradient_pattern cfg subject))) 1)
          || negb (Nat.eqb (List.length (glob w (focal_pattern cfg subject))) 1)
          = true) as ->.
  { apply orb_true_iff. destruct Hne as [H|H]; [left|right];
      apply negb_true_iff, Nat.eqb_neq, H. }
  by rewrite (perform_ok _ _ _ Hack).
Qed.

Lemma C2_witness :
  main_loop sample.world sample.config [PStr "S2"; PStr "S1"] [] =
  main_loop sample.world sample.config [PStr "S1"] [Input (msg "S2")].
Proof.
  apply (C2_ambiguous_subject_skipped sample.world sample.config "S2"
           [PStr "S1"] []); [left; simpl; lia | reflexivity].
Defined.

Lemma loop_body_no_submit w cfg subject tr :
  noSubmit cfg = true ->
  Forall (fun e => is_popen e = false) tr ->
  Forall (fun e => is_popen e = false) (loop_body w cfg subject tr).2.
Proof.
  intros Hns Htr. unfold loop_body.
  destruct subject as [subject| | |]; try done.
  rewrite Hns. cbn [negb]. unfold_M.
  destruct (_ || _).
  - destruct (sys_ok w _ _); [|done]. simpl. apply Forall_app. by repeat constructor.
  - destruct (sys_ok w _ _); [|done].
    destruct (sys_ok w _ _); simpl.
    + rewrite !Forall_app. by repeat constructor.
    + rewrite !Forall_app. by repeat constructor.
Qed.

Lemma main_loop_no_submit w cfg subjects tr :
  noSubmit cfg = true ->
  Forall (fun e => is_popen e = false) tr ->
  Forall (fun e => is_popen e = false) (main_loop w cfg subjects tr).2.
Proof.
  intros Hns. revert tr. induction subjects as [|subject rest IH]; intros tr Htr.
  - done.
  - rewrite main_loop_cons.
    pose proof (loop_body_no_submit w cfg subject tr Hns Htr) as Hb.
    destruct (loop_body w cfg subject tr) as [[ex|[]] tr1]; [done|].
    by apply IH.
Qed.

(** C3.  With no-submit set: over the whole run, whatever the table holds
    and whatever the environment does, no process is started; and a
    subject with exactly one file per pattern still gets its output
    directory and its script, after which the loop goes on. *)
Theorem C3_no_submit_writes_without_submitting w a :
  args.noSubmit a = true ->
  Forall (fun e => is_popen e = false) (main w a []).2 /\
  (forall cfg tr0 tr1 subject g f rest tr,
     resolve w a tr0 = (inr cfg, tr1) ->
     glob w (gradient_pattern cfg subject) = [g] ->
     glob w (focal_pattern cfg subject) = [f] ->
     (forall n e, sys_ok w n e = true) ->
     main_loop w cfg (PStr subject :: rest) tr =
     main_loop w cfg rest
       (tr ++ [Makedirs (subjectOutDir cfg subject);
               WriteFile (sbatchFilePath cfg subject)
                 (sbatch_text cfg subject (ashsCmd cfg subject g f))])).
Proof.
  intros Hns. split.
  - unfold main.
    destruct (resolve w a []) as [[ex|cfg] tr1] eqn:Hr.
    + rewrite (bind_fail _ _ _ _ _ Hr). simpl.
      (* a failed resolution leaves the trace as it was or adds nothing
         but the output directory *)
      revert Hr. unfold resolve, resolve_time, resolve_root. unfold_M.
      repeat (match goal with
              | |- context [if ?b then _ else _] => destruct b
              | |- context [match ?o with Some _ => _ | None => _ end] => destruct o
              end; try (intros; simplify_eq; by repeat constructor)).
    + rewrite (bind_ok _ _ _ _ _ Hr).
      apply resolve_ok in Hr as (_ & _ & Hcfg & _ & _ & _ & ->).
      unfold read_subjects. destruct (read_csv w _) as [df|].
      * unfold_M. apply main_loop_no_submit; [congruence|by repeat constructor].
      * simpl. by repeat constructor.
  - intros cfg tr0 tr1 subject g f rest tr Hr Hg Hf Hok.
    apply resolve_ok in Hr as (_ & _ & Hcfg & _).
    rewrite (main_loop_valid_subject w cfg subject g f rest tr Hg Hf Hok).
    by rewrite Hcfg, Hns.
Qed.

Lemma C3_witness :
  Forall (fun e => is_popen e = false)
    (main sample.world (args.with_noSubmit sample.namespace true) []).2.
Proof.
  exact (proj1 (C3_no_submit_writes_without_submitting sample.world
                  (args.with_noSubmit sample.namespace true) eq_refl)).
Defined.

(** ** The subject list *)

(** The list keeps the cells of the column in file order, repeated cells
    included, and leaves each cell as the reader typed it. *)
Lemma flatten_column (column : list pyval) :
  flatten (map (fun cell => [cell]) column) = column.
Proof.
  unfold flatten. induction column as [|cell rest IH]; simpl; [done|].
  by rewrite IH.
Qed.

Lemma read_subjects_column w cfg column tr :
  read_csv w (subjectsToRunFile cfg) = Some (map (fun cell => [cell]) column) ->
  read_subjects w cfg tr = (inr column, tr).
Proof.
  intros H. unfold read_subjects. rewrite H. unfold_M. by rewrite flatten_column.
Qed.

(** C5.  A table whose first column holds the numbers 101 and 102 comes
    back from the reader typed as integers; the script puts these cells in
    the subject list as they are, without making strings of them, and the
    first turn of the loop then fails in [os.path.join] with a type error:
    the run ends after the parent output directory was made, and no
    script is written although the data of subject 101 is in place. *)
Theorem C5_numeric_ids_are_not_strings :
  read_subjects sample.world_numeric_ids sample.config [] =
    (inr [PInt 101; PInt 102], []) /\
  main sample.world_numeric_ids sample.namespace [] =
    (inl TypeError, [Makedirs "/opt/ashs/outputs"]) /\
  List.length (glob sample.world_numeric_ids
                 (gradient_pattern sample.config (py_str (PInt 101)))) = 1%nat /\
  List.length (glob sample.world_numeric_ids
                 (focal_pattern sample.config (py_str (PInt 101)))) = 1%nat.
Proof. repeat split; vm_compute; reflexivity. Qed.

(** ** The root directory *)

Lemma resolve_root_flag w a r tr :
  args.root a = Some r ->
  resolve_root w a tr =
  if path_exists w r then (inr (PosixPath.abspath (getcwd w) r), tr)
  else (inl (IOError root_msg), tr).
Proof. intros H. unfold resolve_root. rewrite H. by destruct (path_exists w r). Qed.

Lemma resolve_root_environ w a tr :
  args.root a = None ->
  resolve_root w a tr =
  match environ_ASHS_ROOT w with
  | Some v => (inr v, tr)
  | None => (inl (IOError no_root_msg), tr)
  end.
Proof.
  intros H. unfold resolve_root. rewrite H. by destruct (environ_ASHS_ROOT w).
Qed.

(** C7.  Without the root flag and with [ASHS_ROOT] naming a directory
    that does not exist, resolution succeeds when the atlas and the data
    directory are given by absolute paths that exist: the root taken from
    the environment is never tested, and the script written for subject
    [S1] runs the pipeline from under the missing root. *)
Theorem C7_environment_root_not_checked :
  args.root sample.namespace_missing_root = None /\
  environ_ASHS_ROOT sample.world_missing_root = Some "/nonexistent" /\
  path_exists sample.world_missing_root "/nonexistent" = false /\
  (exists cfg,
     resolve sample.world_missing_root sample.namespace_missing_root [] =
       (inr cfg, [Makedirs "/results"]) /\
     ashsRoot cfg = "/nonexistent" /\
     main sample.world_missing_root sample.namespace_missing_root [] =
       (inr tt,
        [Makedirs "/results"; Makedirs "/results/S1";
         WriteFile "/results/S1/sbatch_S1.script"
           (sbatch_text cfg "S1"
              ("srun /nonexistent/bin/ashs_main.sh -a /atlases/upennpmc " +:+
               "-g /scans/S1/MPRAGE_001.nii.gz " +:+
               "-f /scans/S1/HighResHippo_001.nii.gz -w /results/S1 -I S1"));
         Popen ["sbatch"; "sbatch_S1.script"] "/results/S1";
         Wait ["sbatch"; "sbatch_S1.script"] "/results/S1"])).
Proof.
  repeat split. eexists. repeat split; vm_compute; reflexivity.
Qed.

(** ** The time limit *)

Lemma time_ok_mapM t :
  time_ok t <-> is_Some (mapM PyInt.int (split ":" (strip t))).
Proof. unfold time_ok. by rewrite mapM_is_Some. Qed.

Lemma time_ok_default : time_ok "04:00:00".
Proof. apply time_ok_mapM. by eexists. Qed.

(** Any number of parts passes as long as each is an integer literal. *)
Example time_ok_one_part : time_ok "90".
Proof. apply time_ok_mapM. by eexists. Qed.

Example time_ok_four_parts : time_ok " 1:04:00:00 ".
Proof. apply time_ok_mapM. by eexists. Qed.

Example time_not_ok_letter : ~ time_ok "4:0a:00".
Proof. intros [l Hl]%time_ok_mapM. vm_compute in Hl. discriminate. Qed.

Ltac args_fields :=
  cbn [args.with_time args.with_mem args.with_noSubmit
       args.csv args.root args.atlas args.data args.out args.tidy
       args.nProcs args.mem args.time args.email args.noSubmit].

(** Among acceptable time limits, whether resolution succeeds does not
    depend on the one chosen. *)
Lemma resolve_time_indep w a t1 t2 tr :
  time_ok t1 -> time_ok t2 ->
  succeeds (resolve w (args.with_time a t1) tr) ->
  succeeds (resolve w (args.with_time a t2) tr).
Proof.
  intros [l1 H1]%time_ok_mapM [l2 H2]%time_ok_mapM.
  unfold succeeds, resolve, resolve_time, resolve_root. args_fields.
  rewrite H1, H2. unfold_M.
  destruct (path_exists w (args.csv a)); [|done].
  destruct (args.email a) as [addr|]; [destruct (negb (contains "@" addr)); [done|]|].
  all: destruct (args.root a) as [r|];
    [destruct (negb (path_exists w r)); [done|]
    |destruct (environ_ASHS_ROOT w) as [r|]; [|done]].
  all: destruct (negb (path_exists w (PosixPath.join _ (args.atlas a)))); [done|].
  all: destruct (negb (path_exists w _)); [done|].
  all: destruct (sys_ok w _ _); [|done].
  all: intros _; eexists; reflexivity.
Qed.

(** A time limit that is not acceptable stops resolution, at the latest at
    the time check. *)
Lemma resolve_bad_time w a tr :
  ~ time_ok (args.time a) ->
  resolve w a tr =
  if path_exists w (args.csv a) then (inl (IOError time_msg), tr)
  else (inl (IOError csv_msg), tr).
Proof.
  intros Hbad. unfold resolve, resolve_time.
  destruct (mapM _ _) as [l|] eqn:Hm.
  { destruct Hbad. apply time_ok_mapM. by eexists. }
  unfold_M. by destruct (path_exists w (args.csv a)).
Qed.

Lemma resolve_succeeds_csv w a tr :
  succeeds (resolve w a tr) -> path_exists w (args.csv a) = true.
Proof.
  unfold succeeds, resolve. unfold_M.
  destruct (path_exists w (args.csv a)); [done|]. by intros [? ?].
Qed.

(** C6.  For a command line that resolves with the default time limit
    (so that nothing else is at fault): with the time limit replaced by
    any string [t], resolution succeeds exactly when every part of the
    stripped [t] between colons is accepted by [int], however many parts
    there are; when one is not, the run ends with the time-format error
    and has done nothing: no directory made, no subject read. *)
Theorem C6_time_limit_validated w a t tr :
  succeeds (resolve w (args.with_time a "04:00:00") tr) ->
  (succeeds (resolve w (args.with_time a t) tr) <-> time_ok t) /\
  (~ time_ok t ->
   resolve w (args.with_time a t) tr = (inl (IOError time_msg), tr) /\
   main w (args.with_time a t) tr = (inl (IOError time_msg), tr)).
Proof.
  intros Hdef.
  pose proof (resolve_succeeds_csv _ _ _ Hdef) as Hcsv. revert Hcsv. args_fields.
  intros Hcsv.
  assert (~ time_ok t ->
          resolve w (args.with_time a t) tr = (inl (IOError time_msg), tr)) as Hbad.
  { intros Hno. rewrite resolve_bad_time by done. args_fields. by rewrite Hcsv. }
  split; [split|].
  - intros [cfg Hcfg]. destruct (decide (time_ok t)) as [|Hno]; [done|].
    rewrite (Hbad Hno) in Hcfg. done.
  - intros Hok. by apply (resolve_time_indep _ _ "04:00:00"), Hdef; [apply time_ok_default|].
  - intros Hno. split; [by apply Hbad|].
    unfold main. by rewrite (bind_fail _ _ _ _ _ (Hbad Hno)).
Qed.

Lemma C6_witness :
  (succeeds (resolve sample.world (args.with_time sample.namespace "1:30:00") [])
   <-> time_ok "1:30:00") /\
  (~ time_ok "1:30:00" ->
   resolve sample.world (args.with_time sample.namespace "1:30:00") [] =
     (inl (IOError time_msg), []) /\
   main sample.world (args.with_time sample.namespace "1:30:00") [] =
     (inl (IOError time_msg), [])).
Proof.
  apply (C6_time_limit_validated sample.world sample.namespace "1:30:00" []).
  eexists. vm_compute. reflexivity.
Defined.

(** The run reads the time limit only through its stripped form. *)
Lemma main_time_strip w a t1 t2 tr :
  strip t1 = strip t2 ->
  main w (args.with_time a t1) tr = main w (args.with_time a t2) tr.
Proof.
  intros H. unfold main, resolve, resolve_time. args_fields. by rewrite H.
Qed.

Lemma with_time_same a : args.with_time a (args.time a) = a.
Proof. by destruct a. Qed.

(** C9.  White space around the time limit is removed before the limit is
    checked, and the stripped string is what the script's time directive
    (the seventh write) carries: padding the time limit of a command line
    with white space on either side changes nothing in the run. *)
Theorem C9_time_limit_stripped w a ws1 ws2 tr :
  all_chars is_space ws1 = true ->
  all_chars is_space ws2 = true ->
  let padded := args.with_time a (ws1 +:+ args.time a +:+ ws2) in
  main w padded tr = main w a tr /\
  (time_ok (args.time padded) <-> time_ok (args.time a)) /\
  (forall cfg tr' subject cmd,
     resolve w padded tr = (inr cfg, tr') ->
     time cfg = strip (args.time a) /\
     sbatch_writes cfg subject cmd !! 6%nat =
       Some ("#SBATCH --time " +:+ strip (args.time a) +:+ nl)).
Proof.
  intros H1 H2 padded.
  assert (strip (args.time padded) = strip (args.time a)) as Hs.
  { subst padded. args_fields. by apply strip_surrounding. }
  repeat split.
  - subst padded. rewrite <- (with_time_same a) at 3.
    apply main_time_strip. by apply strip_surrounding.
  - unfold time_ok. by rewrite Hs.
  - unfold time_ok. by rewrite Hs.
  - apply resolve_ok in H as (_ & -> & _). done.
  - apply resolve_ok in H as (_ & Ht & _). simpl. by rewrite Ht, Hs.
Qed.

Lemma C9_witness :
  main sample.world (args.with_time sample.namespace (" " +:+ "04:00:00" +:+ nl)) [] =
  main sample.world sample.namespace [].
Proof.
  exact (proj1 (C9_time_limit_stripped sample.world sample.namespace " " nl []
                  eq_refl eq_refl)).
Defined.

(** ** The memory string *)

Lemma str_app_cons x (a b : string) : String x a +:+ b = String x (a +:+ b).
Proof. reflexivity. Qed.

Lemma str_app_nil_l (a : string) : "" +:+ a = a.
Proof. reflexivity. Qed.

Lemma str_app_assoc (a b c : string) : (a +:+ b) +:+ c = a +:+ b +:+ c.
Proof.
  induction a as [|x a IH]; [done|]. by rewrite !str_app_cons, IH.
Qed.

Lemma str_app_nil_r (a : string) : a +:+ "" = a.
Proof. induction a as [|x a IH]; [done|]. by rewrite str_app_cons, IH. Qed.

Lemma str_length_app (a b : string) :
  String.length (a +:+ b) = (String.length a + String.length b)%nat.
Proof.
  induction a as [|x a IH]; [done|]. rewrite str_app_cons. simpl. by rewrite IH.
Qed.

Lemma length_repeat_chr c n : String.length (repeat_chr c n) = n.
Proof. induction n as [|n IH]; simpl; [done|]. by rewrite IH. Qed.

Lemma take_drop n (t : string) : take n t +:+ drop n t = t.
Proof.
  revert t. induction n as [|n IH]; intros [|c r]; simpl take; simpl drop;
    try done.
  by rewrite str_app_cons, IH.
Qed.

Lemma length_drop n (t : string) :
  String.length (drop n t) = (String.length t - n)%nat.
Proof. revert t. induction n as [|n IH]; intros [|c r]; simpl; try done. Qed.

Lemma endswith_app c (a b : string) :
  b <> "" -> endswith c (a +:+ b) = endswith c b.
Proof.
  intros Hb. induction a as [|x a IH]; [done|].
  rewrite str_app_cons. simpl endswith. rewrite IH.
  destruct (a +:+ b) eqn:E; [|done].
  destruct a; [by rewrite str_app_nil_l in E | by rewrite str_app_cons in E].
Qed.

Lemma after_point_app (a b : string) :
  contains "." a = false -> after_point (a +:+ "." +:+ b) = Some b.
Proof.
  induction a as [|x a IH]; simpl contains; [done|].
  intros [Hx Ha]%orb_false_iff. rewrite str_app_cons. simpl after_point.
  rewrite Hx. by apply IH.
Qed.

Lemma contains_app c (a b : string) :
  contains c (a +:+ b) = contains c a || contains c b.
Proof.
  induction a as [|x a IH]; [done|].
  rewrite str_app_cons. simpl contains. by rewrite IH, orb_assoc.
Qed.

Lemma digits_no_point (t : string) :
  all_chars is_digit t = true -> contains "." t = false.
Proof.
  induction t as [|c r IH]; simpl; [done|].
  intros [Hc Hr]%andb_prop. rewrite IH by done.
  destruct (Ascii.eqb_spec c "."); [subst; done | done].
Qed.

Lemma all_chars_take p n (t : string) :
  all_chars p t = true -> all_chars p (take n t) = true.
Proof.
  revert t. induction n as [|n IH]; intros [|c r]; simpl; try done.
  intros [Hc Hr]%andb_prop. by rewrite Hc, IH.
Qed.

Lemma all_chars_repeat (p : ascii -> bool) c n :
  p c = true -> all_chars p (repeat_chr c n) = true.
Proof. intros Hc. induction n as [|n IH]; simpl; [done|]. by rewrite Hc, IH. Qed.

Lemma all_chars_app p (a b : string) :
  all_chars p (a +:+ b) = all_chars p a && all_chars p b.
Proof.
  induction a as [|x a IH]; [done|].
  rewrite str_app_cons. simpl all_chars. by rewrite IH, andb_assoc.
Qed.

Lemma endswith_digits c (t : string) :
  all_chars is_digit t = true -> is_digit c = false -> endswith c t = false.
Proof.
  intros Ht Hc. induction t as [|x r IH]; [done|].
  simpl in Ht. apply andb_prop in Ht as [Hx Hr].
  simpl. destruct r; [|by apply IH].
  destruct (Ascii.eqb_spec x c); [congruence | done].
Qed.

(** In the fixed form a float is printed as an integer part, a point and
    at least one decimal; an integer-valued float gets the single decimal
    [0], any other keeps every digit it has after the point. *)
Lemma format_float_short_fixed digits decpt :
  all_chars is_digit digits = true -> digits <> "" ->
  -4 < decpt <= 16 ->
  exists ip fp,
    PyFloat.format_float_short digits decpt = ip +:+ "." +:+ fp /\
    all_chars is_digit ip = true /\
    Z.of_nat (String.length fp) = Z.max 1 (Z.of_nat (String.length digits) - decpt).
Proof.
  intros Hd Hne Hr. unfold PyFloat.format_float_short.
  assert (((decpt <=? -4) || (16 <? decpt)) = false) as ->.
  { apply orb_false_iff. split; [apply Z.leb_gt | apply Z.ltb_ge]; lia. }
  cbv zeta. cbv iota.
  assert (0 < String.length digits)%nat as Hlen by (destruct digits; simpl; [done|lia]).
  destruct (Z.leb_spec decpt 0) as [Hle|Hgt].
  - (* 0.000ddd *)
    assert (((0 <? decpt) && (decpt <=? Z.of_nat (String.length digits))) = false) as ->.
    { apply andb_false_iff. left. apply Z.ltb_ge. lia. }
    assert ((Z.of_nat (String.length digits) <? decpt) = false) as ->
        by (apply Z.ltb_ge; lia).
    replace (Z.max (Z.of_nat (String.length digits)) (decpt + 1)
             - Z.of_nat (String.length digits)) with 0 by lia.
    change (repeat_chr "0" (Z.to_nat 0)) with "".
    rewrite str_app_nil_r.
    set (zs := repeat_chr "0" (Z.to_nat (0 - decpt))).
    assert (endswith "." (("0." +:+ zs) +:+ digits) = false) as ->.
    { rewrite endswith_app by done. by apply endswith_digits. }
    exists "0", (zs +:+ digits). split; [|split]; [|done|].
    + by rewrite !str_app_assoc.
    + rewrite str_length_app. subst zs. rewrite length_repeat_chr. lia.
  - destruct (Z.leb_spec decpt (Z.of_nat (String.length digits))) as [Hin|Hout].
    + (* ddd.ddd, or ddd. completed by one zero *)
      assert ((0 <? decpt) = true) as -> by (apply Z.ltb_lt; lia).
      cbn [andb].
      assert ((Z.of_nat (String.length digits) <? decpt) = false) as ->
          by (apply Z.ltb_ge; lia).
      set (n := Z.to_nat decpt).
      set (zs := repeat_chr "0" _).
      assert (String.length zs =
              Z.to_nat (Z.max (Z.of_nat (String.length digits)) (decpt + 1)
                        - Z.of_nat (String.length digits))) as Hzs
          by (subst zs; apply length_repeat_chr).
      assert (String.length (drop n digits) = (String.length digits - n)%nat) as Hdrop
          by apply length_drop.
      assert (drop n digits +:+ zs <> "") as Hfp.
      { intros E. apply (f_equal String.length) in E.
        rewrite str_length_app in E. simpl in E. lia. }
      assert (endswith "." ("" +:+ (take n digits +:+ "." +:+ drop n digits) +:+ zs)
              = false) as ->.
      { rewrite str_app_nil_l, !str_app_assoc.
        rewrite endswith_app by (simpl; destruct (drop n digits +:+ zs); done).
        change ("." +:+ drop n digits +:+ zs) with (String "." (drop n digits +:+ zs)).
        change (String "." (drop n digits +:+ zs))
          with ("." +:+ (drop n digits +:+ zs)).
        rewrite endswith_app by done.
        apply endswith_digits; [|done].
        rewrite all_chars_app. apply andb_true_iff. split.
        - rewrite <- (take_drop n digits), all_chars_app in Hd.
          by apply andb_prop in Hd as [_ ?].
        - subst zs. by apply all_chars_repeat. }
      exists (take n digits), (drop n digits +:+ zs). split; [|split].
      * rewrite str_app_nil_l. by rewrite !str_app_assoc.
      * by apply all_chars_take.
      * rewrite str_length_app. lia.
    + (* ddd000.0 *)
      rewrite andb_false_r.
      assert ((Z.of_nat (String.length digits) <? decpt) = true) as ->
          by (apply Z.ltb_lt; lia).
      replace (Z.max (Z.of_nat (String.length digits)) (decpt + 1) - decpt)
        with 1 by lia.
      change (repeat_chr "0" (Z.to_nat 1)) with "0".
      set (zs := repeat_chr "0" _).
      assert (endswith "." ("" +:+ digits +:+ zs +:+ "." +:+ "0") = false) as ->.
      { rewrite str_app_nil_l.
        replace (digits +:+ zs +:+ "." +:+ "0") with ((digits +:+ zs +:+ ".") +:+ "0")
          by (by rewrite !str_app_assoc).
        by rewrite endswith_app. }
      exists (digits +:+ zs), "0". split; [|split].
      * rewrite str_app_nil_l. by rewrite !str_app_assoc.
      * rewrite all_chars_app, Hd. subst zs. by rewrite all_chars_repeat.
      * simpl. lia.
Qed.

Lemma wf_finite neg digits decpt :
  PyFloat.wf (PyFloat.Finite neg digits decpt) = true ->
  all_chars is_digit digits = true /\ digits <> "".
Proof.
  unfold PyFloat.wf. intros [Hd Hs]%andb_prop. split; [done|].
  intros ->. by vm_compute in Hs.
Qed.

Lemma decimal_places_float neg digits decpt :
  PyFloat.wf (PyFloat.Finite neg digits decpt) = true ->
  -4 < decpt <= 16 ->
  decimal_places (PyFloat.str (PyFloat.Finite neg digits decpt) +:+ "G") =
  Some (Z.to_nat (Z.max 1 (Z.of_nat (String.length digits) - decpt))).
Proof.
  intros [Hd Hne]%wf_finite Hr.
  destruct (format_float_short_fixed digits decpt Hd Hne Hr)
    as (ip & fp & Hf & Hip & Hfp).
  unfold PyFloat.str, decimal_places. rewrite Hf.
  replace (((if neg then "-" else "") +:+ ip +:+ "." +:+ fp) +:+ "G")
    with (((if neg then "-" else "") +:+ ip) +:+ "." +:+ (fp +:+ "G"))
    by (by rewrite !str_app_assoc).
  rewrite after_point_app.
  - simpl. f_equal. rewrite str_length_app. simpl. lia.
  - rewrite contains_app, (digits_no_point ip Hip). by destruct neg.
Qed.

(** C4 (as amended).  The memory string is [str] of the float given on
    the command line followed by [G].  For a float printed in the fixed
    form it has as many decimal places as the shortest digits of the value
    have behind the point, and one, the digit [0], when they have none: an
    integer value such as 4 is written [4.0G], and 4.25 is written
    [4.25G]. *)
Theorem C4_memory_string_decimals w a tr cfg tr' neg digits decpt :
  resolve w a tr = (inr cfg, tr') ->
  args.mem a = PFloat (PyFloat.Finite neg digits decpt) ->
  PyFloat.wf (PyFloat.Finite neg digits decpt) = true ->
  -4 < decpt <= 16 ->
  mem cfg = PyFloat.str (PyFloat.Finite neg digits decpt) +:+ "G" /\
  decimal_places (mem cfg) =
    Some (Z.to_nat (Z.max 1 (Z.of_nat (String.length digits) - decpt))) /\
  (Z.of_nat (String.length digits) <= decpt ->
   decimal_places (mem cfg) = Some 1%nat).
Proof.
  intros Hres Hmem Hwf Hr.
  apply resolve_ok in Hres as (Hm & _). rewrite Hmem in Hm. cbn [py_str] in Hm.
  rewrite Hm. split; [done|].
  rewrite decimal_places_float by done. split; [done|].
  intros Hint. f_equal. lia.
Qed.

Lemma C4_witness :
  mem sample.config_mem_4 = "4.0G" /\
  decimal_places (mem sample.config_mem_4) = Some 1%nat.
Proof.
  destruct (C4_memory_string_decimals sample.world
              (args.with_mem sample.namespace (PFloat (PyFloat.Finite false "4" 1)))
              [] sample.config_mem_4 [Makedirs "/opt/ashs/outputs"] false "4" 1
              eq_refl eq_refl eq_refl ltac:(lia)) as (H1 & _ & H3).
  split; [exact H1 | apply H3; simpl; lia].
Defined.

(** C4 as the specification states it does not hold: the memory value
    4.25 is accepted and written with two decimal places. *)
Lemma C4_counterexample :
  ~ (forall w a tok tr cfg tr',
       args.mem_value (Some tok) = Some (args.mem a) ->
       resolve w a tr = (inr cfg, tr') ->
       decimal_places (mem cfg) = Some 1%nat).
Proof.
  intros H.
  specialize (H sample.world
                (args.with_mem sample.namespace (PFloat (PyFloat.Finite false "425" 1)))
                "4.25" [] sample.config_mem_4_25 [Makedirs "/opt/ashs/outputs"]
                eq_refl eq_refl).
  vm_compute in H. discriminate.
Qed.

Example mem_4_25 : mem sample.config_mem_4_25 = "4.25G".
Proof. reflexivity. Qed.

(** C10.  When the memory flag is absent, [args.mem[0]] is the default
    string [4] and the script's memory directive (the sixth write) reads
    [--mem=4G]; when the flag is given as [4], the value is the float 4.0
    and the directive reads [--mem=4.0G].  The default and the same value
    passed on the command line are written differently. *)
Theorem C10_default_memory_not_a_float w a flag tr cfg tr' subject cmd :
  args.mem_value flag = Some (args.mem a) ->
  resolve w a tr = (inr cfg, tr') ->
  let directive := sbatch_writes cfg subject cmd !! 5%nat in
  (flag = None ->
   args.mem a = PStr "4" /\ directive = Some ("#SBATCH --mem=4G" +:+ nl)) /\
  (flag = Some "4" ->
   args.mem a = PFloat (PyFloat.Finite false "4" 1) /\
   directive = Some ("#SBATCH --mem=4.0G" +:+ nl)).
Proof.
  intros Hflag Hres directive.
  apply resolve_ok in Hres as (Hm & _).
  assert (directive = Some (s +:+ ("--mem=" +:+ mem cfg) +:+ nl)) as -> by done.
  split; intros ->.
  - change (args.mem_value None) with (Some (PStr "4")) in Hflag.
    injection Hflag as Hflag. rewrite <- Hflag in Hm. by rewrite Hm.
  - change (args.mem_value (Some "4"))
      with (Some (PFloat (PyFloat.Finite false "4" 1))) in Hflag.
    injection Hflag as Hflag. rewrite <- Hflag in Hm. by rewrite Hm.
Qed.

Lemma C10_witness :
  sbatch_writes sample.config "S1" "" !! 5%nat = Some ("#SBATCH --mem=4G" +:+ nl) /\
  sbatch_writes sample.config_mem_4 "S1" "" !! 5%nat =
    Some ("#SBATCH --mem=4.0G" +:+ nl).
Proof.
  split.
  - exact (proj2 (proj1 (C10_default_memory_not_a_float sample.world
             sample.namespace None [] sample.config [Makedirs "/opt/ashs/outputs"]
             "S1" "" eq_refl eq_refl) eq_refl)).
  - exact (proj2 (proj2 (C10_default_memory_not_a_float sample.world
             (args.with_mem sample.namespace (PFloat (PyFloat.Finite false "4" 1)))
             (Some "4") [] sample.config_mem_4 [Makedirs "/opt/ashs/outputs"]
             "S1" "" eq_refl eq_refl) eq_refl)).
Defined.

(** ** Running twice *)

(** Writing a file, then replaying a trace, then writing the file again
    leaves what replaying the trace and writing the file once leaves. *)
Lemma apply_event_absorb e tr (fs : gmap string string) :
  apply_event (files_after tr (apply_event fs e)) e =
  apply_event (files_after tr fs) e.
Proof.
  revert fs. induction tr as [|e' tr IH]; intros fs.
  - simpl. destruct e; simpl; try done. by rewrite insert_insert_eq.
  - simpl. destruct e as [| |p t| |]; try done.
    destruct e' as [| |p' t'| |]; try apply IH.
    simpl. destruct (decide (p' = p)) as [->|Hne].
    + by rewrite insert_insert_eq.
    + rewrite insert_insert_ne by done. apply (IH (<[p':=t']> fs)).
Qed.

(** Replaying a trace over the files it has left changes nothing. *)
Lemma files_after_idem tr (fs : gmap string string) :
  files_after tr (files_after tr fs) = files_after tr fs.
Proof.
  induction tr as [|e tr IH] using rev_ind; [done|].
  unfold files_after. rewrite !foldl_snoc.
  fold (files_after tr fs). fold (files_after tr (apply_event (files_after tr fs) e)).
  by rewrite apply_event_absorb, IH.
Qed.

(** The run of the sample installation: [S1] is written and submitted,
    [S2] is skipped after the prompt. *)
Example sample_run :
  main sample.world sample.namespace [] =
  (inr tt,
   [Makedirs "/opt/ashs/outputs";
    Makedirs "/opt/ashs/outputs/S1";
    WriteFile "/opt/ashs/outputs/S1/sbatch_S1.script"
      (sbatch_text sample.config "S1"
         ("srun /opt/ashs/bin/ashs_main.sh " +:+
          "-a /opt/ashs/ashs_atlas_upennpmc_20170810 " +:+
          "-g /opt/ashs/data/S1/MPRAGE_001.nii.gz " +:+
          "-f /opt/ashs/data/S1/HighResHippo_001.nii.gz " +:+
          "-w /opt/ashs/outputs/S1 -I S1"));
    Popen ["sbatch"; "sbatch_S1.script"] "/opt/ashs/outputs/S1";
    Wait ["sbatch"; "sbatch_S1.script"] "/opt/ashs/outputs/S1";
    Input (msg "S2")]).
Proof. vm_compute. reflexivity. Qed.

(** * Further properties of the script *)

(** ** Resolution as a whole *)

Lemma resolve_time_run a tr :
  resolve_time a tr =
  if bool_decide (time_ok (args.time a)) then (inr (strip (args.time a)), tr)
  else (inl (IOError time_msg), tr).
Proof.
  unfold resolve_time. case_bool_decide as Hok.
  - apply time_ok_mapM in Hok as [l ->]. done.
  - destruct (mapM _ _) as [l|] eqn:Hm; [|done].
    destruct Hok. apply time_ok_mapM. by eexists.
Qed.

Lemma resolve_root_pure w a tr r tr' :
  resolve_root w a tr = (r, tr') -> tr' = tr.
Proof.
  unfold resolve_root. unfold_M.
  destruct (args.root a); [destruct (negb _)|destruct (environ_ASHS_ROOT w)];
    intros H; by simplify_eq.
Qed.

(** What a successful resolution has checked and what it has assigned. *)
Lemma resolve_inv w a tr cfg tr' :
  resolve w a tr = (inr cfg, tr') ->
  path_exists w (args.csv a) = true /\
  time_ok (args.time a) /\
  (forall addr, args.email a = Some addr -> contains "@" addr = true) /\
  resolve_root w a tr = (inr (ashsRoot cfg), tr) /\
  path_exists w (PosixPath.join (ashsRoot cfg) (args.atlas a)) = true /\
  path_exists w (data_dir w a (ashsRoot cfg)) = true /\
  sys_ok w (List.length tr) (Makedirs (out_dir w a (ashsRoot cfg))) = true /\
  subjectsToRunFile cfg = PosixPath.abspath (getcwd w) (args.csv a) /\
  ashsAtlasName cfg = args.atlas a /\
  ashsAtlasPath cfg = PosixPath.join (ashsRoot cfg) (args.atlas a) /\
  dataDir cfg = data_dir w a (ashsRoot cfg) /\
  parentOutDir cfg = out_dir w a (ashsRoot cfg).
Proof.
  unfold resolve. intros H.
  bind_step H f tr1 E1; [done|]. cbv zeta in H.
  bind_step H t tr2 E2; [done|].
  bind_step H u1 tr3 E3; [done|]. cbv zeta in H.
  bind_step H r tr4 E4; [done|]. cbv zeta in H.
  bind_step H u2 tr5 E5; [done|]. cbv zeta in H.
  bind_step H u3 tr6 E6; [done|]. cbv zeta in H.
  bind_step H u4 tr7 E7; [done|]. cbv zeta in H.
  destruct (path_exists w (args.csv a)) eqn:Hcsv; unfold_M; [|done].
  injection E1 as <- <-.
  rewrite resolve_time_run in E2. case_bool_decide as Htime; [|done].
  injection E2 as <- <-.
  assert ((forall addr, args.email a = Some addr -> contains "@" addr = true)
          /\ tr3 = tr) as [Hemail ->].
  { destruct (args.email a) as [addr|].
    - destruct (contains "@" addr) eqn:Hat; simpl in E3; [|done].
      injection E3 as <-. split; [|done]. intros ? [= <-]. done.
    - injection E3 as <-. split; [|done]. done. }
  pose proof (resolve_root_pure _ _ _ _ _ E4) as ->.
  apply guard_ok in E5 as [He5 ->]. apply guard_ok in E6 as [He6 ->].
  apply negb_false_iff in He5, He6.
  destruct (sys_ok w _ _) eqn:Hsys; [|done].
  injection E7 as <-. injection H as <- <-. simpl.
  by repeat split.
Qed.

Lemma resolve_root_available w a tr root :
  resolve_root w a tr = (inr root, tr) <-> root_available w a root.
Proof.
  unfold resolve_root, root_available. unfold_M.
  destruct (args.root a) as [r|].
  - destruct (path_exists w r); cbn [negb]; split.
    + intros Heq. by simplify_eq.
    + by intros [_ ->].
    + done.
    + by intros [? _].
  - destruct (environ_ASHS_ROOT w); split; intros Heq; by simplify_eq.
Qed.

Lemma resolve_intro w a tr :
  resolvable w a tr ->
  exists cfg, resolve w a tr = (inr cfg, tr ++ [Makedirs (parentOutDir cfg)]).
Proof.
  intros (Hcsv & Htime & Hemail & root & Hroot & Hatlas & Hdata & Hsys).
  apply (resolve_root_available w a tr) in Hroot.
  unfold resolve. rewrite Hcsv.
  erewrite bind_ok by reflexivity. cbv zeta.
  erewrite bind_ok by (by rewrite resolve_time_run, bool_decide_true).
  erewrite (bind_ok _ _ _ tt tr); last first.
  { destruct (args.email a) as [addr|]; [|done]. by rewrite (Hemail addr). }
  cbv zeta. rewrite (bind_ok _ _ _ _ _ Hroot). cbv zeta.
  rewrite Hatlas. cbn [negb]. erewrite bind_ok by reflexivity.
  fold (data_dir w a root). rewrite Hdata. cbn [negb].
  erewrite bind_ok by reflexivity.
  fold (out_dir w a root).
  rewrite (bind_ok _ _ _ tt _ (perform_ok _ _ _ Hsys)).
  match goal with |- exists cfg, mret ?c _ = _ => by exists c end.
Qed.

Lemma succeeds_resolvable w a tr :
  succeeds (resolve w a tr) <-> resolvable w a tr.
Proof.
  split.
  - intros [cfg Hcfg]. destruct (resolve w a tr) as [r tr'] eqn:Hr.
    simpl in Hcfg. subst r.
    apply resolve_inv in Hr
      as (Hcsv & Htime & Hemail & Hroot & Hatlas & Hdata & Hsys & _).
    repeat (split; [done|]). exists (ashsRoot cfg).
    by apply (resolve_root_available w a tr) in Hroot.
  - intros [cfg Hcfg]%resolve_intro. exists cfg. by rewrite Hcfg.
Qed.

(** X1.  Resolution succeeds exactly when the table file exists, the time
    limit is acceptable, the e-mail address (if any) contains an at sign, a
    root is available (the path of the root flag exists, or without the
    flag [ASHS_ROOT] is set), the atlas and the data directory exist
    under the paths that root gives them, and the parent output directory
    can be made.  Nothing else can make it fail: no other flag is looked
    at. *)
Theorem resolve_succeeds_iff w a tr :
  succeeds (resolve w a tr) <-> resolvable w a tr.
Proof. apply succeeds_resolvable. Qed.

Lemma guard_pure (b : bool) ex tr (r : exn + unit) tr' :
  (if b then raise ex else mret tt) tr = (r, tr') -> tr' = tr.
Proof. destruct b; unfold_M; intros Heq; by simplify_eq. Qed.

Lemma resolve_time_pure a tr r tr' : resolve_time a tr = (r, tr') -> tr' = tr.
Proof. rewrite resolve_time_run. case_bool_decide; intros Heq; by simplify_eq. Qed.

Lemma email_check_pure (addr : option string) tr (r : exn + unit) tr' :
  match addr with
  | Some addr => if negb (contains "@" addr)
                 then raise (IOError email_msg) else mret tt
  | None => mret tt
  end tr = (r, tr') -> tr' = tr.
Proof.
  destruct addr; [apply guard_pure|]. unfold_M. intros Heq; by simplify_eq.
Qed.

(** A resolution that fails has done nothing. *)
Lemma resolve_fail_pure w a tr ex tr' :
  resolve w a tr = (inl ex, tr') -> tr' = tr.
Proof.
  unfold resolve. intros H.
  bind_step H f tr1 E1.
  { destruct (path_exists w (args.csv a)); unfold_M; by simplify_eq. }
  assert (tr1 = tr) as ->.
  { destruct (path_exists w (args.csv a)); unfold_M; by simplify_eq. }
  cbv zeta in H.
  bind_step H t tr2 E2.
  { apply resolve_time_pure in E2. by simplify_eq. }
  apply resolve_time_pure in E2 as ->.
  bind_step H u1 tr3 E3.
  { apply email_check_pure in E3. by simplify_eq. }
  apply email_check_pure in E3 as ->. cbv zeta in H.
  bind_step H r tr4 E4.
  { apply resolve_root_pure in E4. by simplify_eq. }
  apply resolve_root_pure in E4 as ->. cbv zeta in H.
  bind_step H u2 tr5 E5.
  { apply guard_pure in E5. by simplify_eq. }
  apply guard_pure in E5 as ->. cbv zeta in H.
  bind_step H u3 tr6 E6.
  { apply guard_pure in E6. by simplify_eq. }
  apply guard_pure in E6 as ->. cbv zeta in H.
  bind_step H u4 tr7 E7.
  { unfold perform in E7. destruct (sys_ok w _ _); by simplify_eq. }
  done.
Qed.

(** The loop raises none of the script's own errors. *)
Lemma loop_body_exn w cfg subject tr ex tr' :
  loop_body w cfg subject tr = (inl ex, tr') ->
  ex = TypeError \/ exists e, ex = SysError e.
Proof.
  unfold loop_body. destruct subject as [subject| | |];
    try (unfold_M; intros H; left; by simplify_eq).
  cbv zeta. unfold_M.
  destruct (_ || _).
  { destruct (sys_ok w _ _); intros H; simplify_eq. right. by eexists. }
  destruct (sys_ok w _ _); [|intros H; simplify_eq; right; by eexists].
  destruct (sys_ok w _ _); [|intros H; simplify_eq; right; by eexists].
  destruct (negb (noSubmit cfg)); [|done].
  destruct (sys_ok w _ _); [|intros H; simplify_eq; right; by eexists].
  destruct (sys_ok w _ _); intros H; simplify_eq. right. by eexists.
Qed.

Lemma main_loop_exn w cfg subjects tr ex tr' :
  main_loop w cfg subjects tr = (inl ex, tr') ->
  ex = TypeError \/ exists e, ex = SysError e.
Proof.
  revert tr. induction subjects as [|subject rest IH]; intros tr; [done|].
  rewrite main_loop_cons.
  destruct (loop_body w cfg subject tr) as [[ex1|[]] tr1] eqn:Hb.
  - intros [= <- <-]. by eapply loop_body_exn.
  - apply IH.
Qed.

(** X2.  When the run ends with one of the script's own error messages,
    nothing has been done: no directory made, no file written, no process
    started.  All the validation comes before the first effect. *)
Theorem main_IOError_no_effect w a tr message tr' :
  main w a tr = (inl (IOError message), tr') -> tr' = tr.
Proof.
  unfold main. intros H.
  bind_step H cfg tr1 E1.
  { simplify_eq. by eapply resolve_fail_pure. }
  bind_step H subjects tr2 E2.
  { unfold read_subjects in E2. destruct (read_csv w _); unfold_M; by simplify_eq. }
  apply main_loop_exn in H as [?|[? ?]]; done.
Qed.

Lemma main_IOError_no_effect_witness :
  (main sample.world (args.with_time sample.namespace "4:0a:00") []).2 = [].
Proof.
  exact (main_IOError_no_effect sample.world
           (args.with_time sample.namespace "4:0a:00") [] time_msg _ eq_refl).
Defined.

(** X3.  After a successful resolution the table file, the atlas directory
    and the data directory exist.  The atlas path is the root joined with
    the atlas name; the data directory is the flag made absolute or, by
    default, [data] under the root; the output directory is the flag made
    absolute or [outputs] under the root, and it is the one directory the
    resolution makes instead of requiring. *)
Theorem resolved_paths w a tr cfg tr' :
  resolve w a tr = (inr cfg, tr') ->
  (path_exists w (args.csv a) = true /\
   path_exists w (ashsAtlasPath cfg) = true /\
   path_exists w (dataDir cfg) = true) /\
  subjectsToRunFile cfg = PosixPath.abspath (getcwd w) (args.csv a) /\
  ashsAtlasPath cfg = PosixPath.join (ashsRoot cfg) (args.atlas a) /\
  dataDir cfg = match args.data a with
                | None => PosixPath.join (ashsRoot cfg) "data"
                | Some d => PosixPath.abspath (getcwd w) d
                end /\
  parentOutDir cfg = match args.out a with
                     | None => PosixPath.join (ashsRoot cfg) "outputs"
                     | Some o => PosixPath.abspath (getcwd w) o
                     end /\
  tr' = tr ++ [Makedirs (parentOutDir cfg)].
Proof.
  intros H. pose proof (resolve_ok _ _ _ _ _ H) as (_ & _ & _ & _ & _ & _ & Htr).
  apply resolve_inv in H
    as (Hcsv & _ & _ & _ & Hatlas & Hdata & _ & Hf & _ & Hap & Hdd & Hod).
  rewrite Hap, Hdd. by repeat split.
Qed.

Lemma resolved_paths_witness :
  path_exists sample.world (dataDir sample.config) = true /\
  dataDir sample.config = "/opt/ashs/data" /\
  parentOutDir sample.config = "/opt/ashs/outputs".
Proof.
  destruct (resolved_paths sample.world sample.namespace [] sample.config
              [Makedirs "/opt/ashs/outputs"] eq_refl)
    as ((_ & _ & Hd) & _ & _ & Hdd & Hod & _).
  split; [exact Hd|]. split; [exact Hdd | exact Hod].
Defined.

(** X4.  The root comes from the flag when the flag is given: the path
    must then exist and is made absolute, and the environment is not
    looked at.  Without the flag the root is the value of [ASHS_ROOT] as it
    stands; with neither, resolution cannot succeed. *)
Theorem resolved_root w a tr cfg tr' :
  resolve w a tr = (inr cfg, tr') ->
  match args.root a with
  | Some r =>
      path_exists w r = true /\ ashsRoot cfg = PosixPath.abspath (getcwd w) r
  | None => environ_ASHS_ROOT w = Some (ashsRoot cfg)
  end.
Proof.
  intros H. apply resolve_inv in H as (_ & _ & _ & Hroot & _).
  unfold resolve_root in Hroot. unfold_M.
  destruct (args.root a) as [r|].
  - destruct (path_exists w r); simpl in Hroot; [|done]. by simplify_eq.
  - destruct (environ_ASHS_ROOT w); by simplify_eq.
Qed.

Lemma resolved_root_witness :
  environ_ASHS_ROOT sample.world = Some (ashsRoot sample.config).
Proof.
  exact (resolved_root sample.world sample.namespace [] sample.config
           [Makedirs "/opt/ashs/outputs"] eq_refl).
Defined.

(** X5.  For a command line that resolves without an e-mail address: with
    an address added, resolution succeeds exactly when the address
    contains an at sign; when it does not, the run ends with the e-mail
    error and has done nothing. *)
Theorem email_validated w a addr tr :
  succeeds (resolve w (with_email a None) tr) ->
  (succeeds (resolve w (with_email a (Some addr)) tr) <->
   contains "@" addr = true) /\
  (contains "@" addr = false ->
   main w (with_email a (Some addr)) tr = (inl (IOError email_msg), tr)).
Proof.
  intros (Hcsv & Htime & _ & Hrest)%succeeds_resolvable.
  split; [split|].
  - intros (_ & _ & Hemail & _)%succeeds_resolvable. by apply Hemail.
  - intros Hat. apply succeeds_resolvable.
    split; [done|]. split; [done|]. split; [|done].
    intros ? [= <-]. done.
  - intros Hat. unfold main.
    erewrite bind_fail; [done|].
    unfold resolve. revert Hcsv Htime. args_fields. cbn [with_email args.csv args.time args.email].
    intros Hcsv Htime. rewrite Hcsv.
    erewrite bind_ok by reflexivity. cbv zeta.
    erewrite bind_ok by (by rewrite resolve_time_run, bool_decide_true).
    erewrite bind_fail; [done|]. by rewrite Hat.
Qed.

Lemma email_validated_witness :
  succeeds (resolve sample.world (with_email sample.namespace (Some "a@b")) []) <->
  contains "@" "a@b" = true.
Proof.
  refine (proj1 (email_validated sample.world sample.namespace "a@b" [] _)).
  eexists. vm_compute. reflexivity.
Defined.

(** X6.  The processor count and the memory value are never checked: any
    integer, zero and the negative ones included, and any value at all are
    accepted, and are written into the script as they are. *)
Theorem nProcs_and_mem_unchecked w a n m tr :
  (succeeds (resolve w (args.with_mem (with_nProcs a n) m) tr) <->
   succeeds (resolve w a tr)) /\
  (forall cfg tr' subject cmd,
     resolve w (args.with_mem (with_nProcs a n) m) tr = (inr cfg, tr') ->
     sbatch_writes cfg subject cmd !! 4%nat =
       Some ("#SBATCH -n " +:+ PyInt.str n +:+ nl) /\
     sbatch_writes cfg subject cmd !! 5%nat =
       Some ("#SBATCH --mem=" +:+ py_str m +:+ "G" +:+ nl)).
Proof.
  split.
  - by rewrite !succeeds_resolvable.
  - intros cfg tr' subject cmd (Hm & _ & _ & Hn & _)%resolve_ok.
    simpl. rewrite Hm, Hn. simpl. by rewrite !str_app_assoc.
Qed.

(** ** The time limit that reaches the script *)

Lemma rstrip_by_idem sp (t : string) :
  rstrip_by sp (rstrip_by sp t) = rstrip_by sp t.
Proof.
  induction t as [|c r IH]; [done|]. simpl.
  destruct (rstrip_by sp r) as [|c' r'] eqn:Hr.
  - destruct (sp c) eqn:Hc; [done|]. simpl. by rewrite Hc.
  - simpl. simpl in IH. by rewrite IH.
Qed.

Lemma lstrip_by_head sp (t : string) :
  match lstrip_by sp t with
  | "" => True
  | String c _ => sp c = false
  end.
Proof.
  induction t as [|c r IH]; [done|]. simpl.
  destruct (sp c) eqn:Hc; [done|]. by simpl.
Qed.

Lemma lstrip_by_rstrip_by sp (t : string) :
  match t with "" => True | String c _ => sp c = false end ->
  lstrip_by sp (rstrip_by sp t) = rstrip_by sp t.
Proof.
  destruct t as [|c r]; [done|]. intros Hc. simpl.
  destruct (rstrip_by sp r); [rewrite Hc|]; simpl; by rewrite Hc.
Qed.

Lemma strip_idem (t : string) : strip (strip t) = strip t.
Proof.
  unfold strip.
  rewrite (lstrip_by_rstrip_by _ _ (lstrip_by_head is_space t)).
  apply rstrip_by_idem.
Qed.

(** X7.  The time limit a successful resolution hands to the script is in
    stripped form, without white space at either end, and is itself an
    acceptable time limit: given back as the time flag it is accepted and
    resolves to the same string. *)
Theorem resolved_time_is_stripped_and_valid w a tr cfg tr' :
  resolve w a tr = (inr cfg, tr') ->
  strip (time cfg) = time cfg /\
  time_ok (time cfg) /\
  resolve w (args.with_time a (time cfg)) tr = (inr cfg, tr').
Proof.
  intros H.
  pose proof (resolve_ok _ _ _ _ _ H) as (_ & Ht & _).
  pose proof (resolve_inv _ _ _ _ _ H) as (_ & Hok & _).
  assert (strip (time cfg) = time cfg) as Hs by (rewrite Ht; apply strip_idem).
  split; [done|]. split.
  - unfold time_ok in *. by rewrite Hs, Ht.
  - rewrite <- H. rewrite <- (with_time_same a) at 2.
    unfold resolve, resolve_time. args_fields. by rewrite Hs, Ht.
Qed.

Lemma resolved_time_is_stripped_and_valid_witness :
  strip (time sample.config) = time sample.config /\
  time_ok (time sample.config) /\
  resolve sample.world (args.with_time sample.namespace (time sample.config)) [] =
    (inr sample.config, [Makedirs "/opt/ashs/outputs"]).
Proof.
  exact (resolved_time_is_stripped_and_valid sample.world sample.namespace []
           sample.config [Makedirs "/opt/ashs/outputs"] eq_refl).
Defined.

(** ** Script names *)

Lemma str_app_inj_length (a b c d : string) :
  String.length a = String.length c -> a +:+ b = c +:+ d -> a = c /\ b = d.
Proof.
  revert c. induction a as [|x a IH]; intros [|y c] Hlen Heq; try done.
  rewrite !str_app_cons in Heq. injection Heq as -> Heq.
  simpl in Hlen. destruct (IH c) as [-> ->]; [lia|done|done].
Qed.

Lemma str_app_inj_r (a c b : string) : a +:+ b = c +:+ b -> a = c.
Proof.
  intros Heq. apply (str_app_inj_length a b c b); [|done].
  apply (f_equal String.length) in Heq. rewrite !str_length_app in Heq. lia.
Qed.

Lemma sbatchFileName_eq subject1 subject2 :
  sbatchFileName subject1 = sbatchFileName subject2 -> subject1 = subject2.
Proof.
  unfold sbatchFileName. intros H.
  apply (String.app_inj "sbatch_") in H. by apply str_app_inj_r in H.
Qed.

(** X8.  Two subjects have the same script file name only when they are
    the same subject. *)
Theorem sbatchFileName_inj subject1 subject2 :
  sbatchFileName subject1 = sbatchFileName subject2 -> subject1 = subject2.
Proof. apply sbatchFileName_eq. Qed.

Lemma sbatchFileName_inj_witness : "S1" = "S1".
Proof. exact (sbatchFileName_inj "S1" "S1" eq_refl). Defined.

Lemma join_relative (a b : string) :
  startswith "/" b = false -> PosixPath.join a b = a +:+ join_sep a +:+ b.
Proof.
  intros Hb. unfold PosixPath.join, join_sep. rewrite Hb.
  by destruct (_ || _).
Qed.

Lemma length_join_sep (a : string) : (String.length (join_sep a) <= 1)%nat.
Proof. unfold join_sep. destruct (_ || _); simpl; lia. Qed.

Lemma sbatchFilePath_eq cfg subject1 subject2 :
  startswith "/" subject1 = false ->
  startswith "/" subject2 = false ->
  sbatchFilePath cfg subject1 = sbatchFilePath cfg subject2 ->
  subject1 = subject2.
Proof.
  intros H1 H2. unfold sbatchFilePath, subjectOutDir.
  rewrite (join_relative _ subject1 H1), (join_relative _ subject2 H2).
  rewrite (join_relative _ (sbatchFileName subject1) eq_refl).
  rewrite (join_relative _ (sbatchFileName subject2) eq_refl).
  set (q1 := join_sep (_ +:+ _ +:+ subject1)).
  set (q2 := join_sep (_ +:+ _ +:+ subject2)).
  pose proof (length_join_sep (parentOutDir cfg +:+
                join_sep (parentOutDir cfg) +:+ subject1)) as Hl1.
  pose proof (length_join_sep (parentOutDir cfg +:+
                join_sep (parentOutDir cfg) +:+ subject2)) as Hl2.
  fold q1 in Hl1. fold q2 in Hl2. clearbody q1 q2.
  unfold sbatchFileName. rewrite !str_app_assoc. intros Heq.
  apply String.app_inj in Heq. apply String.app_inj in Heq.
  pose proof (f_equal String.length Heq) as Hlen.
  rewrite !str_length_app in Hlen.
  apply str_app_inj_length in Heq as [Heq _]; [done|]. simpl in Hlen. lia.
Qed.

(** X9.  Two subjects given by relative names have the same script path
    only when they are the same subject: the scripts of different subjects
    never replace one another. *)
Theorem sbatchFilePath_inj cfg subject1 subject2 :
  startswith "/" subject1 = false ->
  startswith "/" subject2 = false ->
  sbatchFilePath cfg subject1 = sbatchFilePath cfg subject2 ->
  subject1 = subject2.
Proof. apply sbatchFilePath_eq. Qed.

Lemma sbatchFilePath_inj_witness : "S1" = "S1".
Proof. exact (sbatchFilePath_inj sample.config "S1" "S1" eq_refl eq_refl eq_refl). Defined.

(** ** The loop as a whole *)

Lemma loop_body_all_ok w cfg subject tr :
  (forall n e, sys_ok w n e = true) ->
  loop_body w cfg (PStr subject) tr = (inr tt, tr ++ turn_events w cfg subject).
Proof.
  intros Hok. unfold loop_body, turn_events, one_of_each. cbv zeta.
  destruct (Nat.eqb (List.length (glob w (gradient_pattern cfg subject))) 1);
    destruct (Nat.eqb (List.length (glob w (focal_pattern cfg subject))) 1);
    cbn [negb orb andb]; cbv iota;
    try by rewrite (perform_ok _ _ _ (Hok _ _)).
  unfold_M. rewrite Hok. cbv beta iota. rewrite Hok. cbv beta iota.
  destruct (noSubmit cfg); cbn [negb]; cbv beta iota.
  - by rewrite <- !app_assoc.
  - rewrite Hok. cbv beta iota. rewrite Hok. cbv beta iota.
    by rewrite <- !app_assoc.
Qed.

Lemma main_loop_all_ok w cfg subjects tr :
  (forall n e, sys_ok w n e = true) ->
  main_loop w cfg (PStr <$> subjects) tr =
  (inr tt, tr ++ concat (turn_events w cfg <$> subjects)).
Proof.
  intros Hok. revert tr.
  induction subjects as [|subject rest IH]; intros tr.
  - simpl. unfold_M. by rewrite app_nil_r.
  - rewrite fmap_cons, main_loop_cons, loop_body_all_ok by done.
    rewrite IH. simpl. by rewrite app_assoc.
Qed.

Lemma count_concat {A B} (p : B -> bool) (q : A -> bool) (f : A -> list B)
    (l : list A) :
  (forall x, List.length (List.filter p (f x)) = if q x then 1%nat else 0%nat) ->
  List.length (List.filter p (concat (f <$> l))) = List.length (List.filter q l).
Proof.
  intros Hf. induction l as [|x l IH]; [done|].
  rewrite fmap_cons. cbn [concat List.filter].
  rewrite List.filter_app, List.length_app, Hf, IH.
  by destruct (q x).
Qed.

(** X10.  When every subject is a string and every call succeeds, the loop
    runs to the end, and its effects add up: one script written for each
    listed subject that has one file of each kind, one prompt for each
    that has not, and as many processes started as scripts written, or
    none at all under no-submit. *)
Theorem main_loop_accounting w cfg subjects :
  (forall n e, sys_ok w n e = true) ->
  let run := main_loop w cfg (PStr <$> subjects) [] in
  let ready := List.length (List.filter (one_of_each w cfg) subjects) in
  run.1 = inr tt /\
  List.length (List.filter is_write run.2) = ready /\
  List.length (List.filter is_input run.2) = (List.length subjects - ready)%nat /\
  List.length (List.filter is_popen run.2) = if noSubmit cfg then 0%nat else ready.
Proof.
  intros Hok run ready. subst run. rewrite main_loop_all_ok by done.
  cbn [fst snd app]. split; [done|].
  subst ready. split; [|split].
  - apply count_concat. intros s. unfold turn_events.
    destruct (one_of_each w cfg s); [|done]. by destruct (noSubmit cfg).
  - rewrite (count_concat _ (fun s => negb (one_of_each w cfg s))).
    + pose proof (List.filter_length (one_of_each w cfg) subjects) as Hlen.
      unfold length in *. lia.
    + intros s. unfold turn_events.
      destruct (one_of_each w cfg s); [|done]. by destruct (noSubmit cfg).
  - destruct (noSubmit cfg) eqn:Hns.
    + rewrite (count_concat _ (fun _ => false)).
      * by induction subjects.
      * intros s. unfold turn_events. rewrite Hns.
        by destruct (one_of_each w cfg s).
    + apply count_concat. intros s. unfold turn_events. rewrite Hns.
      by destruct (one_of_each w cfg s).
Qed.

Lemma main_loop_accounting_witness :
  (main_loop sample.world sample.config (PStr <$> ["S1"; "S2"]) []).1 = inr tt /\
  List.length (List.filter is_write
    (main_loop sample.world sample.config (PStr <$> ["S1"; "S2"]) []).2) = 1%nat.
Proof.
  destruct (main_loop_accounting sample.world sample.config ["S1"; "S2"]
              (fun _ _ => eq_refl)) as (H1 & H2 & _).
  split; [exact H1 | exact H2].
Defined.

Lemma submission_eq cfg subject1 subject2 :
  submission cfg subject1 = submission cfg subject2 <-> subject1 = subject2.
Proof.
  split; [|by intros ->]. unfold submission. intros H.
  assert (sbatchFileName subject1 = sbatchFileName subject2) as Hname
      by congruence.
  by apply sbatchFileName_eq.
Qed.

Lemma count_occ_app_nat {A} (dec : forall x y : A, {x = y} + {x <> y}) l1 l2 x :
  count_occ dec (l1 ++ l2) x = (count_occ dec l1 x + count_occ dec l2 x)%nat.
Proof. apply List.count_occ_app. Qed.

Lemma count_submission_turn w cfg subject subject' :
  count_occ event_eq_dec (turn_events w cfg subject') (submission cfg subject) =
  if one_of_each w cfg subject' && negb (noSubmit cfg)
     && bool_decide (subject' = subject)
  then 1%nat else 0%nat.
Proof.
  unfold turn_events.
  destruct (one_of_each w cfg subject'); cbn [andb]; [|by simpl].
  destruct (noSubmit cfg); cbn [negb andb app].
  - cbn [count_occ]. by repeat (destruct (event_eq_dec _ _); [done|]).
  - cbn [count_occ].
    repeat (destruct (event_eq_dec (Makedirs _) _); [done|]).
    repeat (destruct (event_eq_dec (WriteFile _ _) _); [done|]).
    repeat (destruct (event_eq_dec (Wait _ _) _); [done|]).
    fold (submission cfg subject').
    destruct (event_eq_dec (submission cfg subject') (submission cfg subject))
      as [Heq|Hne].
    + apply submission_eq in Heq. by rewrite bool_decide_true.
    + rewrite bool_decide_false; [done|]. intros ->. by destruct Hne.
Qed.

(** X11.  When every subject is a string and every call succeeds, a
    subject with one file of each kind is submitted as many times as the
    table lists it (a subject listed twice is submitted twice), and a
    subject without is never submitted; under no-submit nobody is. *)
Theorem submissions_per_subject w cfg subjects subject :
  (forall n e, sys_ok w n e = true) ->
  count_occ event_eq_dec (main_loop w cfg (PStr <$> subjects) []).2
    (submission cfg subject) =
  if one_of_each w cfg subject && negb (noSubmit cfg)
  then count_occ String.eq_dec subjects subject else 0%nat.
Proof.
  intros Hok. rewrite main_loop_all_ok by done. cbn [snd app].
  induction subjects as [|subject' rest IH].
  - simpl. by destruct (_ && _).
  - rewrite fmap_cons. cbn [concat]. rewrite count_occ_app_nat, IH.
    rewrite count_submission_turn. cbn [count_occ].
    destruct (String.eq_dec subject' subject) as [->|Hne].
    + rewrite bool_decide_true by done. rewrite andb_true_r.
      by destruct (_ && _).
    + rewrite bool_decide_false by done. rewrite andb_false_r. done.
Qed.

Lemma submissions_per_subject_witness :
  count_occ event_eq_dec
    (main_loop sample.world sample.config (PStr <$> ["S1"; "S2"; "S1"]) []).2
    (submission sample.config "S1") = 2%nat.
Proof.
  exact (submissions_per_subject sample.world sample.config ["S1"; "S2"; "S1"]
           "S1" (fun _ _ => eq_refl)).
Defined.

(** ** The files after the loop *)

Lemma files_after_app tr1 tr2 (fs : gmap string string) :
  files_after (tr1 ++ tr2) fs = files_after tr2 (files_after tr1 fs).
Proof. unfold files_after. apply foldl_app. Qed.

Lemma files_after_turn w cfg subject (fs : gmap string string) :
  files_after (turn_events w cfg subject) fs =
  if one_of_each w cfg subject
  then <[sbatchFilePath cfg subject :=
           sbatch_text cfg subject
             (ashsCmd cfg subject
                (default "" (glob w (gradient_pattern cfg subject) !! 0%nat))
                (default "" (glob w (focal_pattern cfg subject) !! 0%nat)))]> fs
  else fs.
Proof.
  unfold turn_events.
  destruct (one_of_each w cfg subject); [|done]. by destruct (noSubmit cfg).
Qed.

(** X12.  When every call succeeds and the subjects are relative names,
    then after the loop the script file of every listed subject with one
    file of each kind holds that subject's script: no later turn has
    replaced it with another subject's. *)
Theorem scripts_after_loop w cfg subjects subject (fs : gmap string string) :
  (forall n e, sys_ok w n e = true) ->
  Forall (fun s => startswith "/" s = false) subjects ->
  subject ∈ subjects ->
  one_of_each w cfg subject = true ->
  files_after (main_loop w cfg (PStr <$> subjects) []).2 fs
    !! sbatchFilePath cfg subject =
  Some (sbatch_text cfg subject
          (ashsCmd cfg subject
             (default "" (glob w (gradient_pattern cfg subject) !! 0%nat))
             (default "" (glob w (focal_pattern cfg subject) !! 0%nat)))).
Proof.
  intros Hok Hrel Hin Hready. rewrite main_loop_all_ok by done. cbn [snd app].
  induction subjects as [|subject' rest IH] using rev_ind; [by inversion Hin|].
  rewrite fmap_app, concat_app, files_after_app. cbn [fmap list_fmap concat].
  rewrite app_nil_r, files_after_turn.
  apply Forall_app in Hrel as [Hrel Hrel'].
  apply Forall_cons in Hrel' as [Hrel' _].
  destruct (decide (subject' = subject)) as [->|Hne].
  - rewrite Hready. apply lookup_insert_eq.
  - assert (subject ∈ rest) as Hin'.
    { apply elem_of_app in Hin as [?|Hin]; [done|].
      apply list_elem_of_singleton in Hin. by subst. }
    assert (startswith "/" subject = false) as Hsub.
    { by apply (proj1 (Forall_forall _ _) Hrel). }
    destruct (one_of_each w cfg subject'); [|by apply IH].
    rewrite lookup_insert_ne; [by apply IH|].
    intros Heq. apply Hne. by apply (sbatchFilePath_eq cfg).
Qed.

Lemma scripts_after_loop_witness :
  files_after (main_loop sample.world sample.config (PStr <$> ["S1"; "S2"]) []).2 ∅
    !! "/opt/ashs/outputs/S1/sbatch_S1.script" =
  Some (sbatch_text sample.config "S1"
          (ashsCmd sample.config "S1" "/opt/ashs/data/S1/MPRAGE_001.nii.gz"
             "/opt/ashs/data/S1/HighResHippo_001.nii.gz")).
Proof.
  refine (scripts_after_loop sample.world sample.config ["S1"; "S2"] "S1" ∅
            (fun _ _ => eq_refl) _ _ eq_refl).
  - repeat constructor.
  - apply list_elem_of_here.
Defined.

(** ** One process at a time *)

Lemma proc_state_after_snoc tr e :
  proc_state_after (tr ++ [e]) = proc_step (proc_state_after tr) e.
Proof. unfold proc_state_after. apply foldl_snoc. Qed.

(** A turn that starts with no process in flight ends with none, unless it
    ends the run; and it never causes a disorder. *)
Lemma loop_body_proc w cfg subject tr :
  proc_state_after tr = Idle ->
  match loop_body w cfg subject tr with
  | (inr _, tr') => proc_state_after tr' = Idle
  | (inl _, tr') => proc_state_after tr' <> Disorder
  end.
Proof.
  intros Hidle. unfold loop_body.
  destruct subject as [subject| | |];
    try (unfold_M; by rewrite Hidle).
  cbv zeta. unfold_M.
  destruct (_ || _).
  { destruct (sys_ok w _ _); rewrite ?proc_state_after_snoc, Hidle; done. }
  destruct (sys_ok w _ _); [|by rewrite Hidle].
  destruct (sys_ok w _ _);
    [|by rewrite ?proc_state_after_snoc, Hidle].
  destruct (negb (noSubmit cfg)).
  - destruct (sys_ok w _ _);
      [|by rewrite ?proc_state_after_snoc, Hidle].
    destruct (sys_ok w _ _); rewrite ?proc_state_after_snoc, Hidle; simpl.
    + by rewrite bool_decide_true.
    + done.
  - by rewrite ?proc_state_after_snoc, Hidle.
Qed.

Lemma main_loop_proc w cfg subjects tr :
  proc_state_after tr = Idle ->
  match main_loop w cfg subjects tr with
  | (inr _, tr') => proc_state_after tr' = Idle
  | (inl _, tr') => proc_state_after tr' <> Disorder
  end.
Proof.
  revert tr. induction subjects as [|subject rest IH]; intros tr Hidle; [done|].
  rewrite main_loop_cons.
  pose proof (loop_body_proc w cfg subject tr Hidle) as Hb.
  destruct (loop_body w cfg subject tr) as [[ex|[]] tr1]; [done|].
  by apply IH.
Qed.

(** X13.  In every world and on every command line, whatever fails: the
    script waits for each process it has started before it does anything
    else, so no two submissions are ever in flight together; and a run
    that ends without an exception leaves no process unwaited. *)
Theorem one_process_at_a_time w a :
  proc_state_after (main w a []).2 <> Disorder /\
  (succeeds (main w a []) -> proc_state_after (main w a []).2 = Idle).
Proof.
  assert (match main w a [] with
          | (inr _, tr') => proc_state_after tr' = Idle
          | (inl _, tr') => proc_state_after tr' <> Disorder
          end) as H.
  { unfold main.
    destruct (resolve w a []) as [[ex|cfg] tr1] eqn:Hr.
    - rewrite (bind_fail _ _ _ _ _ Hr).
      apply resolve_fail_pure in Hr as ->. done.
    - rewrite (bind_ok _ _ _ _ _ Hr).
      apply resolve_ok in Hr as (_ & _ & _ & _ & _ & _ & ->).
      unfold read_subjects. destruct (read_csv w _) as [df|]; unfold_M; [|done].
      by apply main_loop_proc. }
  destruct (main w a []) as [[ex|[]] tr']; simpl.
  - split; [done|]. by intros [? ?].
  - split; [by rewrite H|done].
Qed.

(** ** Failures that end the run *)

(** X14.  When the scheduler command cannot be started for a subject, the
    run ends there with that failure: the subject's directory and script
    stay as written, nothing is undone, and the subjects after it are not
    handled at all. *)
Theorem failed_submission_ends_run w cfg subject g f rest tr :
  glob w (gradient_pattern cfg subject) = [g] ->
  glob w (focal_pattern cfg subject) = [f] ->
  noSubmit cfg = false ->
  let made := Makedirs (subjectOutDir cfg subject) in
  let written := WriteFile (sbatchFilePath cfg subject)
                   (sbatch_text cfg subject (ashsCmd cfg subject g f)) in
  sys_ok w (List.length tr) made = true ->
  sys_ok w (List.length (tr ++ [made])) written = true ->
  sys_ok w (List.length ((tr ++ [made]) ++ [written])) (submission cfg subject)
    = false ->
  main_loop w cfg (PStr subject :: rest) tr =
  (inl (SysError (submission cfg subject)), tr ++ [made; written]).
Proof.
  intros Hg Hf Hns made written H1 H2 H3.
  rewrite main_loop_cons. unfold loop_body. rewrite Hg, Hf, Hns.
  change (negb (List.length [g] =? 1)%nat || negb (List.length [f] =? 1)%nat)
    with false.
  cbv iota zeta. cbn [negb]. simpl default. unfold_M.
  fold made. rewrite H1. cbv beta iota.
  fold written. rewrite H2. cbv beta iota.
  fold (submission cfg subject). rewrite H3.
  by rewrite <- app_assoc.
Qed.

Lemma failed_submission_ends_run_witness :
  main_loop world_no_sbatch sample.config [PStr "S1"; PStr "S2"] [] =
  (inl (SysError (submission sample.config "S1")),
   [Makedirs "/opt/ashs/outputs/S1";
    WriteFile "/opt/ashs/outputs/S1/sbatch_S1.script"
      (sbatch_text sample.config "S1"
         (ashsCmd sample.config "S1" "/opt/ashs/data/S1/MPRAGE_001.nii.gz"
            "/opt/ashs/data/S1/HighResHippo_001.nii.gz"))]).
Proof.
  exact (failed_submission_ends_run world_no_sbatch sample.config "S1"
           "/opt/ashs/data/S1/MPRAGE_001.nii.gz"
           "/opt/ashs/data/S1/HighResHippo_001.nii.gz" [PStr "S2"] []
           eq_refl eq_refl eq_refl eq_refl eq_refl eq_refl).
Defined.

(** X15.  When the command line resolves but the reader cannot parse the
    table, the run ends with the reader's error before any subject is
    handled; the parent output directory has been made by then. *)
Theorem unreadable_table_ends_run w a tr cfg tr' :
  resolve w a tr = (inr cfg, tr') ->
  read_csv w (PosixPath.abspath (getcwd w) (args.csv a)) = None ->
  main w a tr = (inl ReaderError, tr ++ [Makedirs (parentOutDir cfg)]).
Proof.
  intros H Hcsv. unfold main. rewrite (bind_ok _ _ _ _ _ H).
  pose proof (resolve_ok _ _ _ _ _ H) as (_ & _ & _ & _ & _ & _ & ->).
  apply resolve_inv in H as (_ & _ & _ & _ & _ & _ & _ & Hf & _).
  erewrite bind_fail; [done|].
  unfold read_subjects. by rewrite Hf, Hcsv.
Qed.

Lemma unreadable_table_ends_run_witness :
  main world_unreadable_table sample.namespace [] =
  (inl ReaderError, [Makedirs "/opt/ashs/outputs"]).
Proof.
  exact (unreadable_table_ends_run world_unreadable_table sample.namespace []
           sample.config [Makedirs "/opt/ashs/outputs"] eq_refl eq_refl).
Defined.

(** X16.  A cell of the table that is not a string ends the run at its
    row with a type error: the rows before it have been handled in full
    (their scripts written and submitted, their prompts shown), the rows
    after it never are. *)
Theorem non_string_cell_ends_run w cfg before cell after tr :
  (forall n e, sys_ok w n e = true) ->
  (forall subject, cell <> PStr subject) ->
  main_loop w cfg ((PStr <$> before) ++ cell :: after) tr =
  (inl TypeError, tr ++ concat (turn_events w cfg <$> before)).
Proof.
  intros Hok Hcell. revert tr.
  induction before as [|subject rest IH]; intros tr.
  - simpl. rewrite app_nil_r. unfold_M.
    destruct cell as [subject| | |]; [by destruct (Hcell subject)|done..].
  - rewrite fmap_cons. simpl app. rewrite main_loop_cons.
    rewrite loop_body_all_ok by done. rewrite IH. simpl.
    by rewrite app_assoc.
Qed.

Lemma non_string_cell_ends_run_witness :
  main_loop sample.world sample.config
    ((PStr <$> ["S1"]) ++ PInt 102 :: [PStr "S2"]) [] =
  (inl TypeError, turn_events sample.world sample.config "S1").
Proof.
  rewrite (non_string_cell_ends_run sample.world sample.config ["S1"] (PInt 102)
             [PStr "S2"] [] (fun _ _ => eq_refl) (fun _ H => eq_ind (PInt 102)
               (fun v => match v with PInt _ => True | _ => False end) I _ H)).
  reflexivity.
Defined.

(** X17.  When the operator does not answer the prompt for a subject
    without one file of each kind (the input stream has ended), the run
    ends there: the subjects after it are not handled. *)
Theorem unanswered_prompt_ends_run w cfg subject rest tr :
  one_of_each w cfg subject = false ->
  sys_ok w (List.length tr) (Input (msg subject)) = false ->
  main_loop w cfg (PStr subject :: rest) tr =
  (inl (SysError (Input (msg subject))), tr).
Proof.
  intros Hnot Hno. rewrite main_loop_cons. unfold loop_body. cbv zeta.
  unfold one_of_each in Hnot.
  assert (negb (Nat.eqb (List.length (glob w (gradient_pattern cfg subject))) 1)
          || negb (Nat.eqb (List.length (glob w (focal_pattern cfg subject))) 1)
          = true) as ->.
  { apply andb_false_iff in Hnot as [->| ->]; [done|apply orb_true_r]. }
  unfold perform. by rewrite Hno.
Qed.

Lemma unanswered_prompt_ends_run_witness :
  main_loop world_no_operator sample.config [PStr "S2"; PStr "S1"] [] =
  (inl (SysError (Input (msg "S2"))), []).
Proof.
  exact (unanswered_prompt_ends_run world_no_operator sample.config "S2"
           [PStr "S1"] [] eq_refl eq_refl).
Defined.

(** ** The script text *)

(** X18.  The script of a subject carries the two mail directives, the
    failure and requeue notice and the recipient, exactly when an e-mail
    address is configured, and none otherwise; no other write of the
    script, the command line included, starts a mail directive. *)
Theorem mail_directives_iff_email cfg subject g f :
  mail_directives (sbatch_writes cfg subject (ashsCmd cfg subject g f)) =
  match email cfg with
  | Some addr => ["#SBATCH --mail-type=FAIL,REQUEUE" +:+ nl;
                  "#SBATCH --mail-user=" +:+ addr +:+ nl]
  | None => []
  end.
Proof.
  unfold mail_directives, sbatch_writes, ashsCmd.
  destruct (email cfg), (tidy cfg); reflexivity.
Qed.

(** ** From the command line to the last subject *)

Lemma flatten_strings (subjects : list string) :
  flatten ((fun s => [PStr s]) <$> subjects) = PStr <$> subjects.
Proof.
  unfold flatten. induction subjects as [|x l IH]; [done|].
  rewrite !fmap_cons. cbn [concat app]. by rewrite IH.
Qed.

Lemma main_all_ok w a cfg tr' subjects :
  resolve w a [] = (inr cfg, tr') ->
  read_csv w (subjectsToRunFile cfg) = Some ((fun s => [PStr s]) <$> subjects) ->
  (forall n e, sys_ok w n e = true) ->
  main w a [] =
  (inr tt, Makedirs (parentOutDir cfg) :: concat (turn_events w cfg <$> subjects)).
Proof.
  intros H Hcsv Hok. unfold main. rewrite (bind_ok _ _ _ _ _ H).
  apply resolve_ok in H as (_ & _ & _ & _ & _ & _ & ->).
  erewrite bind_ok; last first.
  { unfold read_subjects. rewrite Hcsv. unfold_M. reflexivity. }
  rewrite flatten_strings. by rewrite main_loop_all_ok.
Qed.

(** X19.  When the command line resolves, the table holds strings and
    every call succeeds, the run ends without an exception, and its
    effects are the making of the parent output directory followed by the
    effects of the subjects' turns, in the order of the table. *)
Theorem main_end_to_end w a cfg tr' subjects :
  resolve w a [] = (inr cfg, tr') ->
  read_csv w (subjectsToRunFile cfg) = Some ((fun s => [PStr s]) <$> subjects) ->
  (forall n e, sys_ok w n e = true) ->
  main w a [] =
  (inr tt, Makedirs (parentOutDir cfg) :: concat (turn_events w cfg <$> subjects)).
Proof. apply main_all_ok. Qed.

Lemma main_end_to_end_witness :
  main sample.world sample.namespace [] =
  (inr tt,
   Makedirs (parentOutDir sample.config)
   :: concat (turn_events sample.world sample.config <$> ["S1"; "S2"])).
Proof.
  exact (main_end_to_end sample.world sample.namespace sample.config
           [Makedirs "/opt/ashs/outputs"] ["S1"; "S2"] eq_refl eq_refl
           (fun _ _ => eq_refl)).
Defined.

(** ** Running twice *)

Lemma bind_agree {A B} (m1 m2 : M A) (k1 k2 : A -> M B) tr :
  m1 tr = m2 tr ->
  (forall x tr', m2 tr = (inr x, tr') -> k1 x tr' = k2 x tr') ->
  (m1 ≫= k1) tr = (m2 ≫= k2) tr.
Proof.
  intros Hm Hk. unfold mbind, M_bind. rewrite Hm.
  destruct (m2 tr) as [[ex|x] tr']; [done|by apply Hk].
Qed.

Section second_world.
Variables w1 w2 : World.
Hypothesis Henv : environ_ASHS_ROOT w2 = environ_ASHS_ROOT w1.
Hypothesis Hcwd : getcwd w2 = getcwd w1.
Hypothesis Hglob : forall cfg subject,
  glob w2 (gradient_pattern cfg subject) = glob w1 (gradient_pattern cfg subject) /\
  glob w2 (focal_pattern cfg subject) = glob w1 (focal_pattern cfg subject).
Hypothesis Hsys : forall n e, sys_ok w2 n e = sys_ok w1 n e.

Lemma perform_agree e tr : perform w2 e tr = perform w1 e tr.
Proof. unfold perform. by rewrite Hsys. Qed.

Lemma loop_body_agree cfg subject tr :
  loop_body w2 cfg subject tr = loop_body w1 cfg subject tr.
Proof.
  unfold loop_body. destruct subject as [subject| | |]; try done.
  destruct (Hglob cfg subject) as [-> ->]. cbv zeta.
  destruct (_ || _); [apply perform_agree|].
  apply bind_agree; [apply perform_agree|]. intros _ tr1 _.
  apply bind_agree; [apply perform_agree|]. intros _ tr2 _.
  destruct (negb (noSubmit cfg)); [|done].
  apply bind_agree; [apply perform_agree|]. intros _ tr3 _. apply perform_agree.
Qed.

Lemma main_loop_agree cfg subjects tr :
  main_loop w2 cfg subjects tr = main_loop w1 cfg subjects tr.
Proof.
  revert tr. induction subjects as [|subject rest IH]; intros tr; [done|].
  rewrite !main_loop_cons, loop_body_agree.
  destruct (loop_body w1 cfg subject tr) as [[ex|[]] tr1]; [done|apply IH].
Qed.

(** Resolution asks whether four paths exist: the table, the root of the
    flag, the atlas and the data directory.  Two worlds that agree on
    these resolve alike. *)
Lemma resolve_agree a tr :
  path_exists w2 (args.csv a) = path_exists w1 (args.csv a) ->
  (forall r, args.root a = Some r -> path_exists w2 r = path_exists w1 r) ->
  (forall root,
     resolve_root w1 a tr = (inr root, tr) ->
     path_exists w2 (PosixPath.join root (args.atlas a)) =
       path_exists w1 (PosixPath.join root (args.atlas a)) /\
     path_exists w2 (data_dir w1 a root) = path_exists w1 (data_dir w1 a root)) ->
  resolve w2 a tr = resolve w1 a tr.
Proof.
  intros Hcsv Hroot Hrest. unfold resolve.
  apply bind_agree; [by rewrite Hcwd, Hcsv|]. intros f tr1 E1. cbv zeta.
  assert (tr1 = tr) as ->.
  { destruct (path_exists w1 (args.csv a)); unfold_M; by simplify_eq. }
  apply bind_agree; [done|]. intros t tr2 E2.
  apply resolve_time_pure in E2 as ->.
  apply bind_agree; [done|]. intros u tr3 E3.
  apply email_check_pure in E3 as ->. cbv zeta.
  apply bind_agree.
  { unfold resolve_root. rewrite Henv, Hcwd.
    destruct (args.root a) as [r|]; [|done]. by rewrite (Hroot r). }
  intros root tr4 E4.
  pose proof (resolve_root_pure _ _ _ _ _ E4) as ->. cbv zeta.
  destruct (Hrest root E4) as [Hatlas Hdata].
  apply bind_agree; [by rewrite Hatlas|]. intros u2 tr5 E5.
  apply bind_agree.
  { rewrite Hcwd. fold (data_dir w1 a root). by rewrite Hdata. }
  intros u3 tr6 E6.
  apply bind_agree; [rewrite Hcwd; apply perform_agree|]. intros u4 tr7 E7.
  by rewrite Hcwd.
Qed.
End second_world.

Lemma elem_of_concat_intro {A} (x : A) (l : list A) (ls : list (list A)) :
  x ∈ l -> l ∈ ls -> x ∈ concat ls.
Proof.
  intros Hx Hl. induction Hl; cbn [concat]; apply elem_of_app; auto.
Qed.

Lemma created_nil p : created [] p = false.
Proof. reflexivity. Qed.

(** The world a run leaves behind is one in which the command line can be
    run for the second time. *)
Lemma world_after_second_run w a :
  second_run w a (world_after w (main w a []).2).
Proof.
  repeat split.
  - intros p Hp. simpl. by rewrite Hp.
  - intros Hnil p. simpl. by rewrite Hnil, created_nil, orb_false_r.
Qed.

(** C8.  The command line is run, and then run again with the inputs as
    they were: what existed still exists, and what exists newly is what
    the first run made.  The second run ends as the first did and repeats
    its trace: every script is written again, to the same path and with
    the same text.  A write replaces what the path held, so the files
    after the second run are exactly the files after the first.  In
    particular, when the table holds strings and every call succeeds,
    both runs write the script of every listed subject that has one file
    of each kind.  (What the
    first run has made cannot change the second: a run that stops in the
    validation has made nothing, and a run that passes it finds every
    path it asked for still there.) *)
Theorem C8_second_run_rewrites_same_scripts w1 w2 a (fs : gmap string string) :
  second_run w1 a w2 ->
  main w2 a [] = main w1 a [] /\
  (forall path text,
     WriteFile path text ∈ (main w1 a []).2 ->
     WriteFile path text ∈ (main w2 a []).2) /\
  files_after (main w2 a []).2 (files_after (main w1 a []).2 fs) =
  files_after (main w1 a []).2 fs /\
  (forall cfg tr1 subjects subject,
     resolve w1 a [] = (inr cfg, tr1) ->
     read_csv w1 (subjectsToRunFile cfg) = Some ((fun s => [PStr s]) <$> subjects) ->
     (forall n e, sys_ok w1 n e = true) ->
     subject ∈ subjects ->
     one_of_each w1 cfg subject = true ->
     let script :=
       WriteFile (sbatchFilePath cfg subject)
         (sbatch_text cfg subject
            (ashsCmd cfg subject
               (default "" (glob w1 (gradient_pattern cfg subject) !! 0%nat))
               (default "" (glob w1 (focal_pattern cfg subject) !! 0%nat)))) in
     script ∈ (main w1 a []).2 /\ script ∈ (main w2 a []).2).
Proof.
  intros (Henv & Hcwd & Hmono & Hsame & Hglob & Hcsv & Hsys).
  assert (main w2 a [] = main w1 a []) as Hmain.
  { revert Hsame. unfold main.
    destruct (resolve w1 a []) as [[ex|cfg] tr1] eqn:Hr; intros Hsame.
    - (* the first run stopped in the validation: nothing was made *)
      pose proof (resolve_fail_pure _ _ _ _ _ Hr) as ->.
      rewrite (bind_fail _ _ _ _ _ Hr) in Hsame |- *.
      specialize (Hsame eq_refl).
      rewrite (bind_fail _ _ _ ex []); [done|].
      rewrite <- Hr. by apply resolve_agree.
    - (* the first run passed the validation: what it asked for is there *)
      clear Hsame.
      pose proof (resolve_inv _ _ _ _ _ Hr)
        as (Hcsv1 & _ & _ & Hroot & Hatlas & Hdata & _ & Hfile & _).
      assert (resolve w2 a [] = (inr cfg, tr1)) as Hr2.
      { rewrite <- Hr. apply resolve_agree; try done.
        - by rewrite Hcsv1, (Hmono _ Hcsv1).
        - intros r Hflag. unfold resolve_root in Hroot. rewrite Hflag in Hroot.
          destruct (path_exists w1 r) eqn:Hr1; [by apply Hmono|done].
        - intros root Hroot'. rewrite Hroot in Hroot'.
          injection Hroot' as <-.
          by rewrite Hatlas, Hdata, (Hmono _ Hatlas), (Hmono _ Hdata). }
      rewrite (bind_ok _ _ _ _ _ Hr), (bind_ok _ _ _ _ _ Hr2).
      apply bind_agree.
      + unfold read_subjects. by rewrite Hfile, Hcsv.
      + intros subjects tr2 _. by apply main_loop_agree. }
  rewrite Hmain. split; [done|]. split; [done|].
  split; [apply files_after_idem|].
  intros cfg tr1 subjects subject Hr Htable Hok Hin Hready script.
  assert (script ∈ (main w1 a []).2) as Hscript; [|done].
  rewrite (main_all_ok _ _ _ _ _ Hr Htable Hok). cbn [snd].
  apply list_elem_of_further.
  apply (elem_of_concat_intro _ (turn_events w1 cfg subject)).
  - unfold turn_events. rewrite Hready. apply list_elem_of_further, list_elem_of_here.
  - apply list_elem_of_fmap. by exists subject.
Qed.

Lemma C8_witness :
  main (world_after sample.world (main sample.world sample.namespace []).2)
    sample.namespace [] =
  main sample.world sample.namespace [].
Proof.
  exact (proj1 (C8_second_run_rewrites_same_scripts sample.world
                  (world_after sample.world (main sample.world sample.namespace []).2)
                  sample.namespace ∅
                  (world_after_second_run sample.world sample.namespace))).
Defined.

(** The second run of the sample installation does meet a changed world:
    the script of [S1] was not there before the first run and is there
    after it, and the second run writes it again. *)
Example sample_second_run :
  let w2 := world_after sample.world (main sample.world sample.namespace []).2 in
  path_exists sample.world "/opt/ashs/outputs/S1/sbatch_S1.script" = false /\
  path_exists w2 "/opt/ashs/outputs/S1/sbatch_S1.script" = true /\
  Exists (fun e => is_write e = true) (main w2 sample.namespace []).2.
Proof. repeat split. vm_compute. by repeat constructor. Qed.
